(** * Cube net reconstruction: a shallow embedding of
      [src/computer_version/cube_detection.py]

    The Python module thresholds five HSV photographs of a cube, reads a
    colour -> border-position dictionary off every face, splits the faces
    into one top face and four side faces, chains the side faces into a
    strip and pastes the top face above it.

    Conventions of the embedding.
    - A Python exception is a value of [exn]; a computation that can raise is
      a [result].
    - A numpy image is a list of rows ([ndarray]); [shape0] is the number of
      rows and [shape1] the number of columns, as [img.shape[0]] and
      [img.shape[1]] in the source.  Photographs are never empty, so an
      array without rows is given zero columns.
    - A Python [dict] is an association list in insertion order without
      repeated keys: [_get_key] returns keys in that order and the source
      compares such key lists with [==].
    - Python floats only occur as quotients of integers compared with the
      literals 0.2, 0.3, 0.7, 0.8 and as arguments of [int()].  They are
      modelled by exact rationals: IEEE division is correctly rounded and a
      literal denotes the double nearest to its decimal value, so for
      operands of image size the comparisons and truncations agree with the
      rational ones.
    - The OpenCV calls are modelled by their documented contract
      ([inRange], [bitwise_and]) or taken as parameters of a section
      ([resize] through its interpolation, [findContours], [imread],
      [cvtColor]). *)

From Stdlib Require Import String DecimalString.
From Stdlib Require Import ZArith QArith Lqa Bool Arith Lia List Sorted.
Import ListNotations.

Close Scope Q_scope.
Open Scope nat_scope.

(** ** Exceptions and the error monad *)

Inductive exn : Type :=
| IndexError
| ValueError
| ZeroDivisionError
| CvError
| TypeError.

Inductive result (A : Type) : Type :=
| Ok (a : A)
| Raise (e : exn).

Arguments Ok {A} a.
Arguments Raise {A} e.

Definition bind {A B : Type} (m : result A) (k : A -> result B) : result B :=
  match m with
  | Ok a => k a
  | Raise e => Raise e
  end.

Declare Scope py_scope.
Delimit Scope py_scope with py.
Notation "x <- m ;; k" := (bind m (fun x => k))
  (at level 61, m at next level, right associativity) : py_scope.
Notation "' p <- m ;; k" := (bind m (fun x => let p := x in k))
  (at level 61, p pattern, m at next level, right associativity) : py_scope.
Open Scope py_scope.

(** [l[i]] for a non-negative index. *)
Definition getitem {A : Type} (l : list A) (i : nat) : result A :=
  match nth_error l i with
  | Some a => Ok a
  | None => Raise IndexError
  end.

(** [for k in ks: s = body(k, s)], stopping at the first exception. *)
Fixpoint for_each {K S : Type} (ks : list K) (body : K -> S -> result S) (s : S)
  : result S :=
  match ks with
  | [] => Ok s
  | k :: ks' => s' <- body k s ;; for_each ks' body s'
  end.

(** [range(n)] *)
Definition range (n : nat) : list nat := seq 0 n.

(** ** Arrays *)

Definition ndarray (A : Type) : Type := list (list A).

Definition shape0 {A : Type} (a : ndarray A) : nat := length a.

Definition shape1 {A : Type} (a : ndarray A) : nat :=
  match a with
  | [] => 0
  | row :: _ => length row
  end.

(** Every row has the width announced by [shape1]. *)
Definition rectangular {A : Type} (a : ndarray A) : Prop :=
  Forall (fun row => length row = shape1 a) a.

Definition at_px {A : Type} (a : ndarray A) (r c : nat) : option A :=
  match nth_error a r with
  | Some row => nth_error row c
  | None => None
  end.

(** An HSV (or BGR) pixel: three 8-bit channels. *)
Definition pixel : Type := (Z * Z * Z)%type.
Definition image : Type := ndarray pixel.
Definition mask : Type := ndarray Z.

Definition full {A : Type} (h w : nat) (x : A) : ndarray A := repeat (repeat x w) h.

(** ** Configuration (lines 4-15) *)

Definition image_height : nat := 300.

Definition color_dict : list (string * (pixel * pixel)) :=
  [ ("white"%string,      ((0, 0, 50),  (255, 255, 255)));
    ("yellow"%string,     ((15, 0, 0),  (30, 255, 255)));
    ("green"%string,      ((60, 0, 0),  (75, 255, 255)));
    ("blue"%string,       ((105, 0, 0), (120, 255, 255)));
    ("purple"%string,     ((145, 0, 0), (160, 255, 255)));
    ("orange"%string,     ((5, 0, 0),   (15, 255, 255)));
    ("red"%string,        ((175, 0, 0), (190, 255, 255)));
    ("pink"%string,       ((160, 0, 0), (175, 255, 255)));
    ("light_blue"%string, ((90, 0, 0),  (105, 255, 255))) ]%Z.

Definition white_bounds : pixel * pixel := ((0, 0, 50), (255, 255, 255))%Z.

(** ** [cv2.inRange] and [_filter_color] (lines 18-29) *)

Definition in_bounds (lower upper p : pixel) : bool :=
  let '(l0, l1, l2) := lower in
  let '(u0, u1, u2) := upper in
  let '(p0, p1, p2) := p in
  ((l0 <=? p0) && (p0 <=? u0) && (l1 <=? p1) && (p1 <=? u1)
   && (l2 <=? p2) && (p2 <=? u2))%Z.

(** [cv2.inRange(src, lowerb, upperb)]: 255 where every channel lies in the
    closed interval, 0 elsewhere; same rows and columns as [src]. *)
Definition inRange (src : image) (lower upper : pixel) : mask :=
  map (map (fun p => if in_bounds lower upper p then 255%Z else 0%Z)) src.

Definition _filter_color (lower upper : pixel) (imgs : list image)
  : result (list mask) :=
  for_each (range 5)
    (fun k mask =>
       img <- getitem imgs k ;;
       Ok (mask ++ [inRange img lower upper]))
    [].

(** ** [cv2.bitwise_and] with a mask and [_cut_imgs] (lines 32-42) *)

Definition same_shape {A B : Type} (a : ndarray A) (b : ndarray B) : bool :=
  (shape0 a =? shape0 b) && (shape1 a =? shape1 b).

(** [cv2.bitwise_and(a, a, mask=m)]: [a & a = a] where the mask is non-zero,
    zero elsewhere; OpenCV rejects a mask of another size. *)
Definition bitwise_and_self (a : image) (m : mask) : result image :=
  if same_shape a m then
    Ok (map (fun rm : list pixel * list Z =>
               map (fun pm : pixel * Z =>
                      if (snd pm =? 0)%Z then (0, 0, 0)%Z else fst pm)
                   (combine (fst rm) (snd rm)))
            (combine a m))
  else Raise CvError.

Definition _cut_imgs (imgs : list image) : result (list image) :=
  for_each (range 5)
    (fun i img_white =>
       a <- getitem imgs i ;;
       masks <- _filter_color (fst white_bounds) (snd white_bounds) imgs ;;
       m <- getitem masks i ;;
       r <- bitwise_and_self a m ;;
       Ok (img_white ++ [r]))
    [].

(** ** Dictionaries, [_get_key] (lines 147-154) and [_type_division]
       (lines 59-74) *)

Definition dict : Type := list (string * Z).

(** [d[key] = v]: an existing key keeps its place, a new key goes last. *)
Fixpoint setitem_dict (d : dict) (key : string) (v : Z) : dict :=
  match d with
  | [] => [(key, v)]
  | (k, x) :: d' =>
      if String.eqb k key then (k, v) :: d' else (k, x) :: setitem_dict d' key v
  end.

Definition _get_key (dictionary : dict) (value : Z) : list string :=
  map fst (filter (fun lv => (snd lv =? value)%Z) dictionary).

(** One turn of the loop of [_type_division]; the state is
    [(index, bottom_index, top_index)]. *)
Definition type_division_step (st : nat * list nat * nat) (dict_color : dict)
  : nat * list nat * nat :=
  let '(index, bottom_index, top_index) := st in
  if length dict_color =? 4
  then (index + 1, bottom_index, index)
  else (index + 1, bottom_index ++ [index], top_index).

Definition _type_division (dict_color_map : list dict) : list nat * nat :=
  let '(_, bottom_index, top_index) :=
    fold_left type_division_step dict_color_map (0, [], 0) in
  (bottom_index, top_index).

(** ** numpy helpers used by [_combine_imgs] *)

(** [a == b] on two lists of keys. *)
Fixpoint keys_eqb (a b : list string) : bool :=
  match a, b with
  | [], [] => true
  | x :: a', y :: b' => String.eqb x y && keys_eqb a' b'
  | _, _ => false
  end.

(** [np.concatenate((a, b), axis=1)]: the row counts must agree. *)
Definition concatenate1 {A : Type} (a b : ndarray A) : result (ndarray A) :=
  if shape0 a =? shape0 b
  then Ok (map (fun ab : list A * list A => fst ab ++ snd ab) (combine a b))
  else Raise ValueError.

(** [np.concatenate((a, b), axis=0)]: the column counts must agree. *)
Definition concatenate0 {A : Type} (a b : ndarray A) : result (ndarray A) :=
  if shape1 a =? shape1 b then Ok (a ++ b) else Raise ValueError.

(** A bound of a Python slice on an axis of length [n]: a negative bound
    counts from the end, and the bound is clamped to [0..n]. *)
Definition slice_index (i : Z) (n : nat) : nat :=
  let n' := Z.of_nat n in
  Z.to_nat (if (i <? 0)%Z then Z.max (i + n') 0 else Z.min i n').

(** Start and length of [a:b] on an axis of length [n]. *)
Definition slice_range (a b : Z) (n : nat) : nat * nat :=
  let start := slice_index a n in
  let stop := slice_index b n in
  (start, stop - start).

Definition stretch {A : Type} (l : list A) (n : nat) : list A :=
  if length l =? n then l
  else match l with
       | x :: _ => repeat x n
       | [] => []
       end.

(** numpy broadcasting of the assigned value to the shape of the slice: an
    axis of the value must have the length of the slice or length one. *)
Definition broadcast_to {A : Type} (v : ndarray A) (lr lc : nat)
  : result (ndarray A) :=
  if ((shape0 v =? lr) || (shape0 v =? 1)) && ((shape1 v =? lc) || (shape1 v =? 1))
  then Ok (map (fun row => stretch row lc) (stretch v lr))
  else Raise ValueError.

Definition splice {A : Type} (l : list A) (start : nat) (new : list A) : list A :=
  firstn start l ++ new ++ skipn (start + length new) l.

(** [arr[a:b, c:d] = v] *)
Definition setitem_slice {A : Type} (arr : ndarray A) (a b c d : Z) (v : ndarray A)
  : result (ndarray A) :=
  let '(r0, lr) := slice_range a b (shape0 arr) in
  let '(c0, lc) := slice_range c d (shape1 arr) in
  vb <- broadcast_to v lr lc ;;
  Ok (firstn r0 arr
      ++ map (fun rv : list A * list A => splice (fst rv) c0 (snd rv))
             (combine (firstn lr (skipn r0 arr)) vb)
      ++ skipn (r0 + lr) arr).

(** ** [_combine_imgs] (lines 77-107) *)

(** The variables the two nested loops update. *)
Record strip_state : Type := mkStrip {
  left_img : image;
  connect_color : list string;
  length_top : Z
}.

(** Body of the inner loop (lines 91-96). *)
Definition combine_step (img_white : list image) (dict_color_map : list dict)
    (bottom_index : list nat) (top_index : nat) (k : nat) (st : strip_state)
  : result strip_state :=
  let img_index := k + 1 in
  b <- getitem bottom_index img_index ;;
  d <- getitem dict_color_map b ;;
  if keys_eqb (connect_color st) (_get_key d 3) then
    face <- getitem img_white b ;;
    left' <- concatenate1 (left_img st) face ;;
    let connect' := _get_key d 1 in
    dt <- getitem dict_color_map top_index ;;
    if keys_eqb (_get_key d 0) (_get_key dt 2)
    then Ok (mkStrip left' connect'
               (Z.of_nat (shape0 left') - Z.of_nat (shape0 face)))
    else Ok (mkStrip left' connect' (length_top st))
  else Ok st.

(** Lines 86-96: the strip, the last connector and the recorded offset. *)
Definition combine_strip (img_white : list image) (dict_color_map : list dict)
    (bottom_index : list nat) (top_index : nat) : result strip_state :=
  b0 <- getitem bottom_index 0 ;;
  seed <- getitem img_white b0 ;;
  d0 <- getitem dict_color_map b0 ;;
  for_each (range 3)
    (fun _ st =>
       for_each (range 3)
         (combine_step img_white dict_color_map bottom_index top_index) st)
    (mkStrip seed (_get_key d0 1) 0).

(** Lines 98-107: the blank canvas, the stacking and the paste. *)
Definition combine_paste (img_white : list image) (top_index : nat)
    (st : strip_state) : result image :=
  let canvas_top :=
    full (shape0 (left_img st)) (shape1 (left_img st)) (0, 0, 0)%Z in
  top_img <- getitem img_white top_index ;;
  let width_top := (Z.of_nat (shape0 top_img) + length_top st)%Z in
  let height_top := (Z.of_nat (shape1 top_img) + Z.of_nat image_height)%Z in
  stacked <- concatenate0 canvas_top (left_img st) ;;
  setitem_slice stacked (length_top st) width_top
    (Z.of_nat image_height) height_top top_img.

Definition _combine_imgs (img_white : list image) (dict_color_map : list dict)
    (bottom_index : list nat) (top_index : nat) : result image :=
  st <- combine_strip img_white dict_color_map bottom_index top_index ;;
  combine_paste img_white top_index st.

(** Lines 178-180 of [cut_cube]: role partition, then assembly. *)
Definition assemble (img_white : list image) (dict_color_map : list dict)
  : result image :=
  let '(bottom_index, top_index) := _type_division dict_color_map in
  _combine_imgs img_white dict_color_map bottom_index top_index.

(** *** The order of the faces in the strip

    The source keeps the strip only as pixels.  [chain_order] runs the same
    two loops on the dictionaries alone and records which entry of
    [dict_color_map] each concatenation took; [strip_of_order] below relates
    it to [combine_strip]. *)

Definition order_step (dict_color_map : list dict) (bottom_index : list nat)
    (k : nat) (st : list string * list nat) : result (list string * list nat) :=
  let img_index := k + 1 in
  b <- getitem bottom_index img_index ;;
  d <- getitem dict_color_map b ;;
  if keys_eqb (fst st) (_get_key d 3)
  then Ok (_get_key d 1, snd st ++ [b])
  else Ok st.

Definition chain_order (dict_color_map : list dict) (bottom_index : list nat)
  : result (list string * list nat) :=
  b0 <- getitem bottom_index 0 ;;
  d0 <- getitem dict_color_map b0 ;;
  for_each (range 3)
    (fun _ st => for_each (range 3) (order_step dict_color_map bottom_index) st)
    (_get_key d0 1, [b0]).

(** The images of the faces [order], joined left to right. *)
Fixpoint concat_faces (img_white : list image) (acc : image) (order : list nat)
  : result image :=
  match order with
  | [] => Ok acc
  | b :: order' =>
      face <- getitem img_white b ;;
      acc' <- concatenate1 acc face ;;
      concat_faces img_white acc' order'
  end.

(** What role partition and chain resolution settle: the side faces from
    left to right, the top face and the recorded offset. *)
Definition resolution (img_white : list image) (dict_color_map : list dict)
  : result (list nat * nat * Z) :=
  let '(bottom_index, top_index) := _type_division dict_color_map in
  st <- combine_strip img_white dict_color_map bottom_index top_index ;;
  order <- chain_order dict_color_map bottom_index ;;
  Ok (snd order, top_index, length_top st).

(** Indices of the dictionaries with exactly four entries, and of the
    others, in input order. *)
Definition has_four (d : dict) : bool := length d =? 4.

Definition indices_where (p : dict -> bool) (dict_color_map : list dict)
  : list nat :=
  map fst (filter (fun id : nat * dict => p (snd id))
             (combine (seq 0 (length dict_color_map)) dict_color_map)).

Definition tops (dict_color_map : list dict) : list nat :=
  indices_where has_four dict_color_map.

Definition sides (dict_color_map : list dict) : list nat :=
  indices_where (fun d => negb (has_four d)) dict_color_map.

(** ** Contours, zone classification and [_color_detect] (lines 110-144) *)

(** What the source reads off a contour: [cv2.contourArea] and the three
    moments of [cv2.moments] it uses. *)
Record contour : Type := mkContour {
  contourArea : Q;
  m00 : Q;
  m10 : Q;
  m01 : Q
}.

Definition Qltb (x y : Q) : bool := negb (Qle_bool y x).

(** Python's [x / y] *)
Definition true_div (x y : Q) : result Q :=
  if Qeq_bool y 0 then Raise ZeroDivisionError else Ok (x / y)%Q.

(** Python's [int(x)]: truncation towards zero. *)
Definition py_int (x : Q) : Z := Z.quot (Qnum x) (Zpos (Qden x)).

(** The [if]/[elif] chain of lines 133-142; [None] is the [else] branch. *)
Definition classify (horizontal vertical : Q) : option Z :=
  if Qltb vertical 0.2 && Qltb horizontal 0.7 && Qltb 0.3 horizontal
  then Some 0%Z
  else if Qltb 0.8 vertical && Qltb horizontal 0.7 && Qltb 0.3 horizontal
  then Some 2%Z
  else if Qltb 0.8 horizontal && Qltb vertical 0.7 && Qltb 0.3 vertical
  then Some 1%Z
  else if Qltb horizontal 0.2 && Qltb vertical 0.7 && Qltb 0.3 vertical
  then Some 3%Z
  else None.

(** [l[i] = x] on a list. *)
Definition setitem_list {A : Type} (l : list A) (i : nat) (x : A) : result (list A) :=
  if i <? length l then Ok (firstn i l ++ x :: skipn (S i) l)
  else Raise IndexError.

(** What [_color_detect] has built so far: the five dictionaries and the
    lines printed. *)
Record detect_state : Type := mkDetect {
  color_content : list dict;
  printed : list string
}.

(** The normalised centroid of lines 126-131, taken from [contours[0]]. *)
Definition centroid_of_first (shape : nat * nat) (contours : list contour)
  : result (Q * Q) :=
  cnt <- getitem contours 0 ;;
  qx <- true_div (m10 cnt) (m00 cnt) ;;
  let cx := py_int qx in
  qy <- true_div (m01 cnt) (m00 cnt) ;;
  let cy := py_int qy in
  horizontal <- true_div (inject_Z cx) (inject_Z (Z.of_nat (snd shape))) ;;
  vertical <- true_div (inject_Z cy) (inject_Z (Z.of_nat (fst shape))) ;;
  Ok (horizontal, vertical).

(** Body of the loop over [k] (lines 124-142). *)
Definition detect_step (color : string) (shape : nat * nat)
    (contours : list contour) (index_mask : nat) (k : nat) (st : detect_state)
  : result detect_state :=
  ck <- getitem contours k ;;
  let area := contourArea ck in
  if Qltb 100 area then
    hv <- centroid_of_first shape contours ;;
    let '(horizontal, vertical) := hv in
    if negb (String.eqb color "white") then
      match classify horizontal vertical with
      | Some position =>
          d <- getitem (color_content st) index_mask ;;
          content' <- setitem_list (color_content st) index_mask
                        (setitem_dict d color position) ;;
          Ok (mkDetect content' (printed st))
      | None => Ok (mkDetect (color_content st) (printed st ++ ["error"%string]))
      end
    else Ok st
  else Ok st.

(** Lines 123-142 for one mask whose contours are known. *)
Definition detect_contours (color : string) (shape : nat * nat)
    (contours : list contour) (index_mask : nat) (st : detect_state)
  : result detect_state :=
  for_each (range (length contours))
    (detect_step color shape contours index_mask) st.

Section OpenCV.

(** [cv2.findContours(mask, RETR_TREE, CHAIN_APPROX_SIMPLE)] *)
Variable findContours : mask -> list contour.

(** Body of the loop over the masks (lines 121-143); the state carries
    [index_mask]. *)
Definition detect_mask (color : string) (m : mask) (st : nat * detect_state)
  : result (nat * detect_state) :=
  let '(index_mask, ds) := st in
  let shape := (shape0 m, shape1 m) in
  let contours := findContours m in
  ds' <- detect_contours color shape contours index_mask ds ;;
  Ok (index_mask + 1, ds').

(** Body of the loop over the colours (lines 118-143). *)
Definition detect_color (imgs : list image)
    (entry : string * (pixel * pixel)) (ds : detect_state)
  : result detect_state :=
  let '(color, (lower, upper)) := entry in
  masks <- _filter_color lower upper imgs ;;
  r <- for_each masks (detect_mask color) (0, ds) ;;
  Ok (snd r).

Definition _color_detect (imgs : list image) : result detect_state :=
  for_each color_dict (detect_color imgs)
    (mkDetect [[]; []; []; []; []] []).

End OpenCV.

(** ** Lists as shared objects: [_resize_imgs] (lines 45-56)

    [_resize_imgs] assigns to the slots of the list it is given, so the list
    is modelled as a cell of a heap and the function as a heap transformer.
    A [loc] is the identity of a Python list of images. *)

Definition loc : Type := nat.
Definition heap : Type := list (list image).

Definition grid {A : Type} (h w : nat) (f : nat -> nat -> A) : ndarray A :=
  map (fun r => map (fun c => f r c) (seq 0 w)) (seq 0 h).

Section Pipeline.

(** The interpolation of [cv2.resize]: [interp src width height r c] is
    the pixel at row [r], column [c] of [src] resized to [width] columns
    and [height] rows. *)
Variable interp : image -> nat -> nat -> nat -> nat -> pixel.

(** [cv2.resize(src=img, dsize=(width, height))]: an array of [height] rows
    and [width] columns; OpenCV rejects an empty source or target. *)
Definition resize (src : image) (width height : nat) : result image :=
  if (width =? 0) || (height =? 0) || (shape0 src =? 0) || (shape1 src =? 0)
  then Raise CvError
  else Ok (grid height width (interp src width height)).

(** Body of the loop of [_resize_imgs] (lines 53-55): [index] counts the
    slots, [imgs] is the list being read and written. *)
Definition resize_step (imgs : loc) (index : nat) (hp : heap) : result heap :=
  cell <- getitem hp imgs ;;
  img <- getitem cell index ;;
  if shape0 img =? 0 then Raise ZeroDivisionError
  else
    let width := (shape1 img * image_height) / shape0 img in
    resized <- resize img width image_height ;;
    cell' <- setitem_list cell index resized ;;
    setitem_list hp imgs cell'.

(** Returns the heap after the loop together with the returned reference,
    which is the argument itself (line 56). *)
Definition _resize_imgs (imgs : loc) (hp : heap) : result (loc * heap) :=
  cell <- getitem hp imgs ;;
  hp' <- for_each (range (length cell)) (resize_step imgs) hp ;;
  Ok (imgs, hp').

(** *** [cut_cube] (lines 157-182) *)

Variable findContours : mask -> list contour.
(** [cv2.imread]: [None] when the file is missing or unreadable. *)
Variable imread : string -> option image.
(** [cv2.cvtColor] with [COLOR_BGR2HSV] and with [COLOR_HSV2BGR]. *)
Variable bgr2hsv : image -> image.
Variable hsv2bgr : image -> image.

(** [str(n)] *)
Definition str (n : nat) : string := NilEmpty.string_of_uint (Nat.to_uint n).

(** Body of the loading loop (lines 168-169); the state is
    [(img, img_hsv)]. *)
Definition load_step (pictures : string) (i : nat)
    (st : list (option image) * list image)
  : result (list (option image) * list image) :=
  let '(img, img_hsv) := st in
  let img := img ++ [imread (pictures ++ str (i + 1) ++ ".PNG")%string] in
  loaded <- getitem img i ;;
  match loaded with
  | Some bgr => Ok (img, img_hsv ++ [bgr2hsv bgr])
  | None => Raise CvError
  end.

Definition cut_cube (pictures : string)
  : result (image * list (option image)) :=
  loaded <- for_each (range 5) (load_step pictures) ([], []) ;;
  let '(img, img_hsv) := loaded in
  img_white <- _cut_imgs img_hsv ;;
  detected <- _color_detect findContours img_white ;;
  let dict_color_map := color_content detected in
  (* [img_white] is a list local to this call: the only cell of its heap *)
  resized <- _resize_imgs 0 [img_white] ;;
  img_white' <- getitem (snd resized) (fst resized) ;;
  res <- assemble img_white' dict_color_map ;;
  Ok (hsv2bgr res, img).

End Pipeline.

(** ** Sample inputs

    Concrete faces, dictionaries and OpenCV stand-ins at which the
    statements below are evaluated. *)

(** A face image of the common height, of one colour. *)
Definition square (p : pixel) : image := full 300 300 p.

Definition five_squares : list image :=
  [ square (20, 200, 200); square (70, 200, 200); square (110, 200, 200);
    square (150, 200, 200); square (170, 200, 200) ]%Z.

(** Nearest-neighbour sampling, one admissible interpolation. *)
Definition nearest (src : image) (width height r c : nat) : pixel :=
  let scale (i n m : nat) : nat :=
    N.to_nat (N.of_nat i * N.of_nat n / N.of_nat m) in
  match at_px src (scale r (shape0 src) height) (scale c (shape1 src) width) with
  | Some p => p
  | None => (0, 0, 0)%Z
  end.

(** A contour finder for masks without any blob. *)
Definition no_contours (m : mask) : list contour := [].

(** Every channel of [p] lies between the bounds, ends included. *)
Definition within (lower upper p : pixel) : Prop :=
  let '(l0, l1, l2) := lower in
  let '(u0, u1, u2) := upper in
  let '(p0, p1, p2) := p in
  (l0 <= p0 <= u0 /\ l1 <= p1 <= u1 /\ l2 <= p2 <= u2)%Z.

(** The first channel, the hue. *)
Definition hue (p : pixel) : Z := fst (fst p).


(** A blob of area 400 whose centroid is the pixel [(cx, cy)]. *)
Definition blob_at (cx cy : Z) : contour :=
  mkContour 400 400 (inject_Z (400 * cx)) (inject_Z (400 * cy)).

(** The five empty dictionaries and the empty output [_color_detect] starts
    from. *)
Definition nothing_detected : detect_state := mkDetect [[]; []; []; []; []] [].

(** A speck of area 4 in the middle of a 300 x 300 image. *)
Definition speck : contour := mkContour 4 4 600 600.

Definition shape_of (r : result image) : result (nat * nat) :=
  a <- r ;; Ok (shape0 a, shape1 a).

(** Four side faces that chain 0, 1, 2, 3 by their right and left colours;
    face 2 carries at its top the colour the top face (4) has at its
    bottom. *)
Definition chained_maps : list dict :=
  [ [("yellow", 1); ("orange", 3)];
    [("yellow", 3); ("green", 1)];
    [("green", 3); ("blue", 1); ("red", 0)];
    [("blue", 3); ("orange", 1)];
    [("purple", 1); ("red", 2); ("pink", 0); ("light_blue", 3)] ]%string%Z.

(** The same faces with one sticker of face 4 undetected: no dictionary has
    four entries. *)
Definition no_top_maps : list dict :=
  [ [("yellow", 1); ("orange", 3)];
    [("yellow", 3); ("green", 1)];
    [("green", 3); ("blue", 1); ("red", 0)];
    [("blue", 3); ("orange", 1)];
    [("purple", 1); ("red", 2); ("pink", 0)] ]%string%Z.

(** Face 1 continues the seed, but no face continues face 1. *)
Definition broken_maps : list dict :=
  [ [("yellow", 1); ("orange", 3)];
    [("yellow", 3); ("green", 1)];
    [("blue", 3); ("purple", 1)];
    [("purple", 3); ("orange", 1)];
    [("purple", 1); ("red", 2); ("pink", 0); ("light_blue", 3)] ]%string%Z.

(** Faces 1 and 2 continue each other. *)
Definition looping_maps : list dict :=
  [ [("yellow", 1)];
    [("yellow", 3); ("green", 1)];
    [("yellow", 1); ("green", 3)];
    [("blue", 3); ("purple", 1)];
    [("purple", 1); ("red", 2); ("pink", 0); ("light_blue", 3)] ]%string%Z.

(** The [j]-th of the three faces the inner loop scans, and its
    dictionary. *)
Definition scanned_index (b1 b2 b3 : nat) (j : nat) : nat :=
  nth j [b1; b2; b3] 0.
Definition scanned_dict (d1 d2 d3 : dict) (j : nat) : dict :=
  nth j [d1; d2; d3] [].

(** *** Calls by reference

    The other stages that are handed the list of images only read it, and
    [_cut_imgs] returns a list of its own. *)

(** A call of a function that only reads the list [imgs]. *)
Definition reading {A : Type} (f : list image -> result A) (imgs : loc)
    (hp : heap) : result (A * heap) :=
  cell <- getitem hp imgs ;;
  a <- f cell ;;
  Ok (a, hp).

Definition _filter_color_at (lower upper : pixel) (imgs : loc) (hp : heap)
  : result (list mask * heap) :=
  reading (_filter_color lower upper) imgs hp.

(** The list [img_white] built by [_cut_imgs] becomes a new cell. *)
Definition _cut_imgs_at (imgs : loc) (hp : heap) : result (loc * heap) :=
  cell <- getitem hp imgs ;;
  img_white <- _cut_imgs cell ;;
  Ok (length hp, hp ++ [img_white]).

Definition _color_detect_at (findContours : mask -> list contour) (imgs : loc)
    (hp : heap) : result (detect_state * heap) :=
  reading (_color_detect findContours) imgs hp.

Definition _combine_imgs_at (dict_color_map : list dict)
    (bottom_index : list nat) (top_index : nat) (img_white : loc) (hp : heap)
  : result (image * heap) :=
  reading (fun cell => _combine_imgs cell dict_color_map bottom_index top_index)
    img_white hp.

(** What line 54 stores in place of [img]. *)
Definition resized (interp : image -> nat -> nat -> nat -> nat -> pixel)
    (img : image) : result image :=
  if shape0 img =? 0 then Raise ZeroDivisionError
  else resize interp img (shape1 img * image_height / shape0 img) image_height.

(** An image [cv2.resize] accepts and that keeps at least one column at the
    common height. *)
Definition resizable (img : image) : Prop :=
  0 < shape0 img /\ shape0 img <= shape1 img * image_height.

(** A photograph 150 rows high and 100 columns wide. *)
Definition small_photo : image := full 150 100 (20, 200, 200)%Z.

(** Two outcomes that are both exceptions, the same one, or both values,
    related by [R]. *)
Definition alike {A B : Type} (R : A -> B -> Prop) (x : result A) (y : result B)
  : Prop :=
  match x, y with
  | Ok a, Ok b => R a b
  | Raise e, Raise e' => e = e'
  | _, _ => False
  end.

(** Two strips of the same height, with the same connector and offset. *)
Definition same_resolution (s t : strip_state) : Prop :=
  shape0 (left_img s) = shape0 (left_img t)
  /\ connect_color s = connect_color t
  /\ length_top s = length_top t.

(** ** Further definitions used in the statements *)

(** The keys of a dictionary, in insertion order. *)
Definition keys (d : dict) : list string := map fst d.

(** What cropping leaves of one image: the pixels within the bounds of
    white, black elsewhere. *)
Definition cropped (a : image) : image :=
  map (map (fun p : pixel =>
              if in_bounds (fst white_bounds) (snd white_bounds) p
              then p else (0, 0, 0)%Z)) a.

(** The third channel, the value. *)
Definition value (p : pixel) : Z := snd p.

(** The three channels are 8-bit. *)
Definition eight_bit (p : pixel) : Prop :=
  let '(p0, p1, p2) := p in
  (0 <= p0 <= 255 /\ 0 <= p1 <= 255 /\ 0 <= p2 <= 255)%Z.




(** Five small faces, one row of a hundred pixels each. *)
Definition five_bars : list image :=
  [ full 1 100 (20, 200, 200); full 1 100 (70, 200, 200);
    full 1 100 (110, 200, 200); full 1 100 (150, 200, 200);
    full 1 100 (170, 200, 200) ]%Z.

(** The colour of the blank canvas. *)
Definition black : pixel := (0, 0, 0)%Z.

(** The five files [cut_cube] reads. *)
Definition photo_paths (pictures : string) : list string :=
  map (fun i => (pictures ++ str (i + 1) ++ ".PNG")%string) (range 5).

(** A folder without any file. *)
Definition no_photo (path : string) : option image := None.

(** Whether a computation returned. *)
Definition is_Ok {A : Type} (r : result A) : bool :=
  match r with
  | Ok _ => true
  | Raise _ => false
  end.

(** A photograph thirty rows high and four columns wide. *)
Definition thin_photo : image := full 30 4 (20, 200, 200)%Z.

(** A folder in which every file is that photograph. *)
Definition thin_photos (path : string) : option image := Some thin_photo.

(** * Properties *)

(** ** The error monad and the loops *)

Lemma bind_Ok {A B : Type} (m : result A) (k : A -> result B) (b : B) :
  bind m k = Ok b -> exists a, m = Ok a /\ k a = Ok b.
Proof.
  destruct m as [a|e]; simpl; intros H; [eauto | discriminate].
Qed.

Lemma getitem_Ok {A : Type} (l : list A) (i : nat) (a : A) :
  getitem l i = Ok a <-> nth_error l i = Some a.
Proof.
  unfold getitem. destruct (nth_error l i); split; congruence.
Qed.

Lemma getitem_nth {A : Type} (l : list A) (i : nat) (a : A) :
  nth_error l i = Some a -> getitem l i = Ok a.
Proof. apply getitem_Ok. Qed.

Lemma getitem_IndexError {A : Type} (l : list A) (i : nat) :
  length l <= i -> getitem l i = Raise IndexError.
Proof.
  intros H. unfold getitem. now rewrite (proj2 (nth_error_None l i) H).
Qed.

Lemma for_each_app {K S : Type} (ks1 ks2 : list K) (body : K -> S -> result S) (s : S) :
  for_each (ks1 ++ ks2) body s
  = (s' <- for_each ks1 body s ;; for_each ks2 body s').
Proof.
  revert s. induction ks1 as [|k ks1 IH]; intros s; simpl; [reflexivity|].
  destruct (body k s) as [s'|e]; simpl; [apply IH | reflexivity].
Qed.

Lemma for_each_ext {K S : Type} (ks : list K) (f g : K -> S -> result S) (s : S) :
  (forall k s', In k ks -> f k s' = g k s') ->
  for_each ks f s = for_each ks g s.
Proof.
  revert s. induction ks as [|k ks IH]; intros s H; simpl; [reflexivity|].
  rewrite (H k s (or_introl eq_refl)).
  destruct (g k s) as [s'|e]; simpl; [|reflexivity].
  apply IH. intros k' s'' Hin. apply H. now right.
Qed.

(** A property kept by every turn that returns is kept by the loop. *)
Lemma for_each_invariant {K S : Type} (P : S -> Prop) (ks : list K)
    (body : K -> S -> result S) :
  (forall k s s', In k ks -> P s -> body k s = Ok s' -> P s') ->
  forall s s', P s -> for_each ks body s = Ok s' -> P s'.
Proof.
  induction ks as [|k ks IH]; intros Hstep s s' Hs Hrun; simpl in Hrun.
  - now inversion Hrun; subst.
  - apply bind_Ok in Hrun as (s1 & H1 & H2).
    apply (IH (fun k' a b Hin => Hstep k' a b (or_intror Hin)) s1 s'); [|exact H2].
    exact (Hstep k s s1 (or_introl eq_refl) Hs H1).
Qed.

(** A loop whose turns all return from a state satisfying [P] returns. *)
Lemma for_each_total {K S : Type} (P : S -> Prop) (ks : list K)
    (body : K -> S -> result S) :
  (forall k s, In k ks -> P s -> exists s', body k s = Ok s' /\ P s') ->
  forall s, P s -> exists s', for_each ks body s = Ok s' /\ P s'.
Proof.
  induction ks as [|k ks IH]; intros Hstep s Hs; simpl.
  - eauto.
  - destruct (Hstep k s (or_introl eq_refl) Hs) as (s1 & H1 & HP1).
    rewrite H1. simpl.
    apply IH; [|exact HP1].
    intros k' a Hin. apply Hstep. now right.
Qed.

Lemma keys_eqb_eq (a b : list string) : keys_eqb a b = true <-> a = b.
Proof.
  revert b. induction a as [|x a IH]; destruct b as [|y b]; simpl;
    try (split; [discriminate | congruence]); [tauto|].
  rewrite andb_true_iff, String.eqb_eq, IH.
  split; [intros [-> ->]; reflexivity | intros E; inversion E; auto].
Qed.

Lemma keys_eqb_refl (a : list string) : keys_eqb a a = true.
Proof. now apply keys_eqb_eq. Qed.

Lemma keys_eqb_neq (a b : list string) : a <> b -> keys_eqb a b = false.
Proof.
  intros H. destruct (keys_eqb a b) eqn:E; [|reflexivity].
  now apply keys_eqb_eq in E.
Qed.

(** ** Colour filtering *)

Lemma in_bounds_within (lower upper p : pixel) :
  in_bounds lower upper p = true <-> within lower upper p.
Proof.
  destruct lower as [[l0 l1] l2], upper as [[u0 u1] u2], p as [[p0 p1] p2].
  unfold in_bounds, within.
  rewrite !andb_true_iff, !Z.leb_le. tauto.
Qed.

Lemma in_bounds_empty_hue (lower upper p : pixel) :
  (hue upper < hue lower)%Z -> in_bounds lower upper p = false.
Proof.
  intros H. destruct (in_bounds lower upper p) eqn:E; [|reflexivity].
  apply in_bounds_within in E.
  destruct lower as [[l0 l1] l2], upper as [[u0 u1] u2], p as [[p0 p1] p2].
  unfold hue, within in *. simpl in *. lia.
Qed.

Lemma at_px_map {A B : Type} (f : A -> B) (a : ndarray A) (r c : nat) :
  at_px (map (map f) a) r c = option_map f (at_px a r c).
Proof.
  unfold at_px. rewrite nth_error_map.
  destruct (nth_error a r) as [row|]; simpl; [|reflexivity].
  apply nth_error_map.
Qed.

Lemma shape_inRange (img : image) (lower upper : pixel) :
  shape0 (inRange img lower upper) = shape0 img
  /\ shape1 (inRange img lower upper) = shape1 img.
Proof.
  unfold inRange, shape0, shape1. split; [apply length_map|].
  destruct img as [|row img]; simpl; [reflexivity | apply length_map].
Qed.

(** With five images or more, the masks are those of the first five, in
    order. *)
Lemma filter_color_map (lower upper : pixel) (imgs : list image) :
  5 <= length imgs ->
  _filter_color lower upper imgs
  = Ok (map (fun img => inRange img lower upper) (firstn 5 imgs)).
Proof.
  intros H.
  destruct imgs as [|a [|b [|c [|d [|e rest]]]]]; simpl in H; try lia.
  reflexivity.
Qed.

Lemma filter_color_short (lower upper : pixel) (imgs : list image) :
  length imgs < 5 -> _filter_color lower upper imgs = Raise IndexError.
Proof.
  intros H.
  destruct imgs as [|a [|b [|c [|d [|e rest]]]]]; simpl in H; try lia;
    reflexivity.
Qed.

(** C7.  Given five photographs, [_filter_color] returns five masks in the
    order of the photographs; each mask has the size of its photograph and
    is set (255) at a pixel exactly when the three channels lie within the
    inclusive bounds and clear (0) otherwise; when the upper hue bound is
    below the lower one, every pixel of every mask is clear. *)
Theorem filter_color_masks (lower upper : pixel) (imgs : list image) :
  length imgs = 5 ->
  exists masks,
    _filter_color lower upper imgs = Ok masks /\
    length masks = 5 /\
    forall k img, nth_error imgs k = Some img ->
      exists m, nth_error masks k = Some m /\
        shape0 m = shape0 img /\ shape1 m = shape1 img /\
        forall r c p, at_px img r c = Some p ->
          exists v, at_px m r c = Some v /\
            (v = 255%Z <-> within lower upper p) /\
            (v = 0%Z <-> ~ within lower upper p) /\
            ((hue upper < hue lower)%Z -> v = 0%Z).
Proof.
  intros Hlen.
  exists (map (fun img => inRange img lower upper) imgs).
  split; [|split].
  - rewrite filter_color_map by lia.
    now rewrite <- Hlen, firstn_all.
  - now rewrite length_map.
  - intros k img Hk.
    exists (inRange img lower upper).
    rewrite nth_error_map, Hk. split; [reflexivity|].
    destruct (shape_inRange img lower upper) as [-> ->].
    do 2 (split; [reflexivity|]).
    intros r c p Hp. unfold inRange. rewrite at_px_map, Hp. simpl.
    eexists; split; [reflexivity|].
    pose proof (in_bounds_within lower upper p) as Hw.
    pose proof (in_bounds_empty_hue lower upper p) as Hh.
    destruct (in_bounds lower upper p).
    + split; [tauto|]. split.
      * split; [discriminate|]. intros Hn. exfalso. apply Hn. now apply Hw.
      * intros Hlt. specialize (Hh Hlt). discriminate.
    + split; [|split].
      * split; [discriminate|]. intros Hin. apply Hw in Hin. discriminate.
      * split; [|reflexivity]. intros _ Hin. apply Hw in Hin. discriminate.
      * reflexivity.
Qed.

Lemma filter_color_masks_witness :
  length five_squares = 5 /\
  exists masks,
    _filter_color (15, 0, 0)%Z (30, 255, 255)%Z five_squares = Ok masks /\
    length masks = 5.
Proof.
  split; [reflexivity|].
  destruct (filter_color_masks (15, 0, 0)%Z (30, 255, 255)%Z five_squares
              eq_refl) as (masks & H1 & H2 & _).
  exists masks. split; assumption.
Defined.

(** ** Five photographs, no more, no fewer *)

Lemma cut_imgs_short (imgs : list image) :
  length imgs < 5 -> _cut_imgs imgs = Raise IndexError.
Proof.
  intros H. unfold _cut_imgs. simpl.
  destruct imgs as [|a imgs]; [reflexivity|].
  unfold getitem at 1. simpl.
  now rewrite filter_color_short.
Qed.

Lemma cut_imgs_firstn (imgs : list image) :
  5 <= length imgs -> _cut_imgs imgs = _cut_imgs (firstn 5 imgs).
Proof.
  intros H. unfold _cut_imgs.
  apply for_each_ext. intros i acc Hi.
  assert (Hi5 : i < 5) by (apply in_seq in Hi; lia).
  unfold getitem at 1 3. rewrite nth_error_firstn.
  apply Nat.ltb_lt in Hi5. rewrite Hi5. apply Nat.ltb_lt in Hi5.
  rewrite (filter_color_map _ _ imgs H).
  rewrite (filter_color_map _ _ (firstn 5 imgs)).
  - now rewrite firstn_firstn.
  - rewrite length_firstn. lia.
Qed.

Section Detection.

Variable findContours : mask -> list contour.

Lemma color_detect_short (imgs : list image) :
  length imgs < 5 -> _color_detect findContours imgs = Raise IndexError.
Proof.
  intros H. unfold _color_detect. simpl.
  now rewrite filter_color_short.
Qed.

Lemma color_detect_firstn (imgs : list image) :
  5 <= length imgs ->
  _color_detect findContours imgs
  = _color_detect findContours (firstn 5 imgs).
Proof.
  intros H. unfold _color_detect.
  apply for_each_ext. intros [color [lower upper]] ds _.
  unfold detect_color.
  rewrite (filter_color_map _ _ imgs H).
  rewrite (filter_color_map _ _ (firstn 5 imgs)).
  - now rewrite firstn_firstn.
  - rewrite length_firstn. lia.
Qed.

(** C10.  Mask filtering, cropping and colour detection read positions 0
    to 4 of their list whatever its length: with fewer than five images
    each of them raises [IndexError], and with five or more each returns
    what it returns on the first five alone. *)
Theorem five_images_hard_wired (imgs : list image) :
  (length imgs < 5 ->
     (forall lower upper, _filter_color lower upper imgs = Raise IndexError)
     /\ _cut_imgs imgs = Raise IndexError
     /\ _color_detect findContours imgs = Raise IndexError)
  /\
  (5 <= length imgs ->
     (forall lower upper,
         _filter_color lower upper imgs
         = _filter_color lower upper (firstn 5 imgs))
     /\ _cut_imgs imgs = _cut_imgs (firstn 5 imgs)
     /\ _color_detect findContours imgs
        = _color_detect findContours (firstn 5 imgs)).
Proof.
  split; intros H.
  - split; [|split].
    + intros lower upper. now apply filter_color_short.
    + now apply cut_imgs_short.
    + now apply color_detect_short.
  - split; [|split].
    + intros lower upper.
      rewrite (filter_color_map _ _ imgs H).
      rewrite (filter_color_map _ _ (firstn 5 imgs)).
      * now rewrite firstn_firstn.
      * rewrite length_firstn. lia.
    + now apply cut_imgs_firstn.
    + now apply color_detect_firstn.
Qed.

End Detection.

Lemma five_images_hard_wired_witness :
  (length (firstn 4 five_squares) < 5
   /\ _cut_imgs (firstn 4 five_squares) = Raise IndexError)
  /\
  (5 <= length (five_squares ++ [square (0, 0, 0)%Z])
   /\ _color_detect no_contours (five_squares ++ [square (0, 0, 0)%Z])
      = _color_detect no_contours
          (firstn 5 (five_squares ++ [square (0, 0, 0)%Z]))).
Proof.
  split; split.
  - simpl. lia.
  - apply (proj1 (five_images_hard_wired no_contours (firstn 4 five_squares))).
    simpl. lia.
  - simpl. lia.
  - apply (proj2 (five_images_hard_wired no_contours
                    (five_squares ++ [square (0, 0, 0)%Z]))).
    simpl. lia.
Defined.

(** ** Border zones *)

Lemma Qltb_spec (x y : Q) : BoolSpec (x < y)%Q (y <= x)%Q (Qltb x y).
Proof.
  unfold Qltb. destruct (Qle_bool y x) eqn:E; simpl; constructor.
  - now apply Qle_bool_iff.
  - apply Qnot_le_lt. intros H. apply Qle_bool_iff in H. congruence.
Qed.

Lemma Qltb_true (x y : Q) : (x < y)%Q -> Qltb x y = true.
Proof.
  intros H. destruct (Qltb_spec x y) as [_|Hle]; [reflexivity|].
  exfalso. exact (Qlt_not_le _ _ H Hle).
Qed.









(** ** Which contour is measured *)

(** The centroid that is classified is that of the first contour of the
    mask, whichever contour passed the area test. *)
Lemma detect_step_reads_first (color : string) (shape : nat * nat)
    (c0 : contour) (rest rest' : list contour) (index_mask k : nat)
    (st : detect_state) :
  option_map contourArea (nth_error (c0 :: rest) k)
  = option_map contourArea (nth_error (c0 :: rest') k) ->
  detect_step color shape (c0 :: rest) index_mask k st
  = detect_step color shape (c0 :: rest') index_mask k st.
Proof.
  intros H. unfold detect_step, getitem at 1 3.
  destruct (nth_error (c0 :: rest) k) as [ck|],
           (nth_error (c0 :: rest') k) as [ck'|]; simpl in *; try discriminate;
    [|reflexivity].
  injection H as ->. reflexivity.
Qed.

(** C2.  A speck of area 4 in the middle and a blob of area 400 centred at
    (150, 30) on a 300 x 300 yellow mask: the blob passes the area test, is
    measured at the centroid of the speck, (0.5, 0.5), and is reported as
    an error, although its own centroid, (0.5, 0.1), lies in the TOP zone
    and the blob alone is recorded as yellow -> 0. *)
Theorem blob_measured_at_first_contour :
  detect_contours "yellow" (300, 300) [speck; blob_at 150 30] 0 nothing_detected
  = Ok (mkDetect [[]; []; []; []; []] ["error"%string])
  /\ centroid_of_first (300, 300) [speck; blob_at 150 30]
     = centroid_of_first (300, 300) [speck]
  /\ (exists h v, centroid_of_first (300, 300) [blob_at 150 30] = Ok (h, v)
                  /\ classify h v = Some 0%Z)
  /\ detect_contours "yellow" (300, 300) [blob_at 150 30] 0 nothing_detected
     = Ok (mkDetect [[("yellow"%string, 0%Z)]; []; []; []; []] []).
Proof.
  split; [reflexivity|]. split; [reflexivity|]. split; [|reflexivity].
  eexists. eexists. split; reflexivity.
Qed.

(** ** Role partition *)

Lemma last_cons {A : Type} (a : A) (l : list A) (d : A) :
  last (a :: l) d = last l a.
Proof.
  revert a d. induction l as [|b l IH]; intros a d; [reflexivity|].
  change (last (b :: l) d = last (b :: l) a).
  now rewrite !IH.
Qed.

Lemma type_division_fold (l : list dict) (n : nat) (bs : list nat) (t : nat) :
  fold_left type_division_step l (n, bs, t)
  = (n + length l,
     bs ++ map fst (filter (fun id : nat * dict => negb (has_four (snd id)))
                      (combine (seq n (length l)) l)),
     last (map fst (filter (fun id : nat * dict => has_four (snd id))
                      (combine (seq n (length l)) l))) t).
Proof.
  revert n bs t. induction l as [|d l IH]; intros n bs t.
  - simpl. now rewrite Nat.add_0_r, app_nil_r.
  - cbn [fold_left length seq combine filter snd].
    unfold type_division_step at 2.
    change (length d =? 4) with (has_four d).
    destruct (has_four d); cbn [negb map fst].
    + rewrite Nat.add_1_r, IH, last_cons. f_equal. f_equal. lia.
    + rewrite Nat.add_1_r, IH, <- app_assoc. simpl. f_equal. f_equal. lia.
Qed.

(** The side list holds the indices of the dictionaries that do not have four
    entries, in order, and the top index is the last index of a dictionary
    with four entries, or 0. *)
Lemma type_division_spec (dict_color_map : list dict) :
  _type_division dict_color_map
  = (sides dict_color_map, last (tops dict_color_map) 0).
Proof.
  unfold _type_division. now rewrite type_division_fold.
Qed.

Lemma In_combine_seq {A : Type} (l : list A) (n i : nat) (a : A) :
  In (i, a) (combine (seq n (length l)) l)
  <-> n <= i /\ nth_error l (i - n) = Some a.
Proof.
  revert n. induction l as [|x l IH]; intros n; simpl.
  - split; [tauto|]. intros [_ H]. destruct (i - n); discriminate.
  - rewrite IH. split.
    + intros [E | [Hle Hn]].
      * inversion E; subst. rewrite Nat.sub_diag. split; [lia | reflexivity].
      * split; [lia|]. replace (i - n) with (S (i - S n)) by lia. exact Hn.
    + intros [Hle Hn]. destruct (Nat.eq_dec n i) as [->|Hne].
      * rewrite Nat.sub_diag in Hn. simpl in Hn. left. congruence.
      * right. split; [lia|].
        replace (i - n) with (S (i - S n)) in Hn by lia. exact Hn.
Qed.

Lemma In_indices_where (p : dict -> bool) (dict_color_map : list dict) (i : nat) :
  In i (indices_where p dict_color_map)
  <-> exists d, nth_error dict_color_map i = Some d /\ p d = true.
Proof.
  unfold indices_where. rewrite in_map_iff. split.
  - intros ([j d] & E & Hin). simpl in E. subst j.
    apply filter_In in Hin as [Hin Hp]. simpl in Hp.
    apply In_combine_seq in Hin as [_ Hn]. rewrite Nat.sub_0_r in Hn. eauto.
  - intros (d & Hn & Hp). exists (i, d). split; [reflexivity|].
    apply filter_In. split; [|exact Hp].
    apply In_combine_seq. rewrite Nat.sub_0_r. split; [lia | exact Hn].
Qed.

Lemma tops_sides_length (dict_color_map : list dict) :
  length (tops dict_color_map) + length (sides dict_color_map)
  = length dict_color_map.
Proof.
  unfold tops, sides, indices_where. rewrite !length_map.
  rewrite (filter_length (fun id : nat * dict => has_four (snd id))).
  rewrite length_combine, length_seq. lia.
Qed.

(** A loop one of whose turns raises from every state raises. *)
Lemma for_each_raises {K S : Type} (ks : list K) (body : K -> S -> result S)
    (k0 : K) :
  In k0 ks ->
  (forall s, exists e, body k0 s = Raise e) ->
  forall s, exists e, for_each ks body s = Raise e.
Proof.
  induction ks as [|k ks IH]; intros Hin Hbad s; [contradiction|].
  simpl. destruct (body k s) as [s'|e] eqn:E; simpl; [|eauto].
  destruct Hin as [->|Hin].
  - destruct (Hbad s) as [e He]. congruence.
  - now apply IH.
Qed.

(** With fewer than four side indices the assembly stops with an
    exception. *)
Lemma combine_imgs_few_sides (img_white : list image)
    (dict_color_map : list dict) (bottom_index : list nat) (top_index : nat) :
  length bottom_index < 4 ->
  exists e,
    _combine_imgs img_white dict_color_map bottom_index top_index = Raise e.
Proof.
  intros Hlen. unfold _combine_imgs, combine_strip.
  destruct (getitem bottom_index 0) as [b0|e]; cbn [bind]; [|eauto].
  destruct (getitem img_white b0) as [seed|e]; cbn [bind]; [|eauto].
  destruct (getitem dict_color_map b0) as [d0|e]; cbn [bind]; [|eauto].
  match goal with
  | |- context [for_each (range 3) ?body ?s0] =>
      destruct (for_each_raises (range 3) body 0) with (s := s0) as [e He]
  end.
  - simpl. auto.
  - intros s. apply for_each_raises with (k0 := 2); [simpl; auto|].
    intros s'. exists IndexError. unfold combine_step.
    now rewrite getitem_IndexError by (simpl; lia).
  - rewrite He. cbn [bind]. eauto.
Qed.

(** C3, as the code has it.  For five dictionaries the partition itself
    never fails.  When exactly one has four entries, that face is the top
    face and the four others are the side faces, in input order.  When none
    has, nothing is refused: index 0 is returned as the top face and all five
    faces as side faces, and the assembly goes on with them.  When more than
    one has, fewer than four side faces are left and the assembly stops with
    an exception, so no net is produced. *)
Theorem type_division_roles (dict_color_map : list dict) :
  length dict_color_map = 5 ->
  (forall i, In i (tops dict_color_map)
             <-> exists d, nth_error dict_color_map i = Some d /\ length d = 4)
  /\ (forall t, tops dict_color_map = [t] ->
        _type_division dict_color_map = (sides dict_color_map, t)
        /\ length (sides dict_color_map) = 4
        /\ ~ In t (sides dict_color_map))
  /\ (tops dict_color_map = [] ->
        _type_division dict_color_map = ([0; 1; 2; 3; 4], 0)
        /\ forall img_white,
            assemble img_white dict_color_map
            = _combine_imgs img_white dict_color_map [0; 1; 2; 3; 4] 0)
  /\ (2 <= length (tops dict_color_map) ->
        forall img_white,
        exists e, assemble img_white dict_color_map = Raise e).
Proof.
  intros Hlen.
  pose proof (tops_sides_length dict_color_map) as Hsum.
  pose proof (type_division_spec dict_color_map) as Hspec.
  split; [|split; [|split]].
  - intros i. unfold tops. rewrite In_indices_where.
    split; intros (d & Hd & H4); exists d; (split; [exact Hd|]);
      unfold has_four in *; now apply Nat.eqb_eq.
  - intros t Ht. rewrite Ht in Hspec, Hsum. simpl in Hspec, Hsum.
    split; [exact Hspec|]. split; [lia|].
    intros Hin.
    assert (Hint : In t (tops dict_color_map)) by (rewrite Ht; now left).
    apply In_indices_where in Hin as (d & Hd & Hp).
    apply In_indices_where in Hint as (d' & Hd' & Hp').
    rewrite Hd in Hd'. injection Hd' as <-. rewrite Hp' in Hp. discriminate.
  - intros Hnone. rewrite Hnone in Hspec. simpl in Hspec.
    assert (Hsides : sides dict_color_map = [0; 1; 2; 3; 4]).
    { destruct dict_color_map as [|d0 [|d1 [|d2 [|d3 [|d4 [|d5 rest]]]]]];
        try discriminate Hlen.
      unfold tops, sides, indices_where in *. simpl in *.
      destruct (has_four d0); [discriminate|].
      destruct (has_four d1); [discriminate|].
      destruct (has_four d2); [discriminate|].
      destruct (has_four d3); [discriminate|].
      destruct (has_four d4); [discriminate|].
      reflexivity. }
    rewrite Hsides in Hspec. split; [exact Hspec|].
    intros img_white. unfold assemble. now rewrite Hspec.
  - intros Hmany img_white. unfold assemble. rewrite Hspec.
    apply combine_imgs_few_sides. lia.
Qed.

Lemma type_division_roles_witness :
  length chained_maps = 5
  /\ tops chained_maps = [4]
  /\ _type_division chained_maps = (sides chained_maps, 4)
  /\ length (sides chained_maps) = 4.
Proof.
  split; [reflexivity|]. split; [reflexivity|].
  destruct (type_division_roles chained_maps eq_refl) as (_ & Hone & _).
  destruct (Hone 4 eq_refl) as (H1 & H2 & _).
  split; assumption.
Defined.

(** C3 fails as stated: on [no_top_maps], where no dictionary has four
    entries, the partition returns face 0 as the top face and the net is
    assembled. *)
Lemma no_top_face_not_refused :
  length no_top_maps = 5
  /\ tops no_top_maps = []
  /\ _type_division no_top_maps = ([0; 1; 2; 3; 4], 0)
  /\ shape_of (assemble five_squares no_top_maps) = Ok (600, 1200)
  /\ ~ (forall img_white dict_color_map,
           length dict_color_map = 5 ->
           length (tops dict_color_map) <> 1 ->
           exists e, assemble img_white dict_color_map = Raise e).
Proof.
  assert (Hrun : shape_of (assemble five_squares no_top_maps) = Ok (600, 1200))
    by (vm_compute; reflexivity).
  repeat (split; [reflexivity || exact Hrun|]).
  intros Hclaim.
  destruct (Hclaim five_squares no_top_maps eq_refl) as [e He].
  - discriminate.
  - rewrite He in Hrun. discriminate.
Qed.

(** ** The recorded offset *)

Lemma concatenate1_shape0 {A : Type} (a b c : ndarray A) :
  concatenate1 a b = Ok c -> shape0 a = shape0 b /\ shape0 c = shape0 b.
Proof.
  unfold concatenate1. destruct (shape0 a =? shape0 b) eqn:E; [|discriminate].
  apply Nat.eqb_eq in E. intros H. injection H as <-.
  split; [exact E|].
  unfold shape0 in *. rewrite length_map, length_combine. lia.
Qed.

(** Line 96 subtracts row counts, which [np.concatenate] has just required
    to be equal: whenever the strip is built, the recorded offset is 0. *)
Lemma recorded_offset_zero (img_white : list image) (dict_color_map : list dict)
    (bottom_index : list nat) (top_index : nat) (st : strip_state) :
  combine_strip img_white dict_color_map bottom_index top_index = Ok st ->
  length_top st = 0%Z.
Proof.
  unfold combine_strip. intros H.
  apply bind_Ok in H as (b0 & _ & H).
  apply bind_Ok in H as (seed & _ & H).
  apply bind_Ok in H as (d0 & _ & H).
  revert H.
  apply (for_each_invariant (fun s => length_top s = 0%Z)); [|reflexivity].
  intros _ s s' _ Hs.
  apply (for_each_invariant (fun s => length_top s = 0%Z)); [|exact Hs].
  clear. intros k s s' _ Hs. unfold combine_step. intros H.
  apply bind_Ok in H as (b & _ & H).
  apply bind_Ok in H as (d & _ & H).
  destruct (keys_eqb (connect_color s) (_get_key d 3)).
  - apply bind_Ok in H as (face & _ & H).
    apply bind_Ok in H as (left' & Hcat & H).
    apply bind_Ok in H as (dt & _ & H).
    apply concatenate1_shape0 in Hcat as [_ Hrows].
    destruct (keys_eqb (_get_key d 0) (_get_key dt 2));
      injection H as <-; simpl; [lia | exact Hs].
  - now injection H as <-.
Qed.

(** C1.  On [chained_maps] the strip is built in the order 0, 1, 2, 3 from
    four faces 300 wide; face 2 has at its top the colour the top face has
    at its bottom and 600 columns precede it, yet the offset recorded is 0;
    the top face is pasted into rows 0-299 at columns 300-599, the band that
    starts at [image_height], whatever the offset. *)
Theorem top_offset_not_cumulative_width :
  chain_order chained_maps [0; 1; 2; 3] = Ok (["orange"%string], [0; 1; 2; 3])
  /\ (d2 <- getitem chained_maps 2 ;; dt <- getitem chained_maps 4 ;;
      Ok (_get_key d2 0, _get_key dt 2))
     = Ok (["red"%string], ["red"%string])
  /\ (f0 <- getitem five_squares 0 ;; f1 <- getitem five_squares 1 ;;
      Ok (shape1 f0 + shape1 f1)) = Ok 600
  /\ (st <- combine_strip five_squares chained_maps [0; 1; 2; 3] 4 ;;
      Ok (shape0 (left_img st), shape1 (left_img st), length_top st))
     = Ok (300, 1200, 0%Z)
  /\ (r <- _combine_imgs five_squares chained_maps [0; 1; 2; 3] 4 ;;
      Ok (shape0 r, shape1 r,
          [at_px r 0 299; at_px r 0 300; at_px r 299 599; at_px r 0 600;
           at_px r 299 899]))
     = Ok (600, 1200,
           [Some (0, 0, 0); Some (170, 200, 200); Some (170, 200, 200);
            Some (0, 0, 0); Some (0, 0, 0)]%Z).
Proof.
  repeat split; vm_compute; reflexivity.
Qed.

(** ** A broken chain *)

(** A turn at which the face does not continue the connector leaves the
    state as it is. *)
Lemma combine_step_no_match (img_white : list image) (dict_color_map : list dict)
    (bottom_index : list nat) (top_index k b : nat) (d : dict) (st : strip_state) :
  nth_error bottom_index (k + 1) = Some b ->
  nth_error dict_color_map b = Some d ->
  connect_color st <> _get_key d 3 ->
  combine_step img_white dict_color_map bottom_index top_index k st = Ok st.
Proof.
  intros Hb Hd Hne. unfold combine_step.
  rewrite (getitem_nth _ _ _ Hb). cbn [bind].
  rewrite (getitem_nth _ _ _ Hd). cbn [bind].
  now rewrite keys_eqb_neq.
Qed.

Section FourSides.

Variables (img_white : list image) (dict_color_map : list dict).
Variables (b0 b1 b2 b3 : nat) (rest : list nat) (top_index : nat).
Variables (f0 f1 f2 f3 : image) (d0 d1 d2 d3 dt : dict).

Let bottom_index : list nat := b0 :: b1 :: b2 :: b3 :: rest.

Hypothesis face0 : nth_error img_white b0 = Some f0.
Hypothesis face1 : nth_error img_white b1 = Some f1.
Hypothesis face2 : nth_error img_white b2 = Some f2.
Hypothesis face3 : nth_error img_white b3 = Some f3.
Hypothesis dict0 : nth_error dict_color_map b0 = Some d0.
Hypothesis dict1 : nth_error dict_color_map b1 = Some d1.
Hypothesis dict2 : nth_error dict_color_map b2 = Some d2.
Hypothesis dict3 : nth_error dict_color_map b3 = Some d3.
Hypothesis dict_top : nth_error dict_color_map top_index = Some dt.
Hypothesis rows1 : shape0 f1 = shape0 f0.
Hypothesis rows2 : shape0 f2 = shape0 f0.
Hypothesis rows3 : shape0 f3 = shape0 f0.

(** The face, image and dictionary the turn [k] of the inner loop looks
    at. *)
Lemma scanned_face (k : nat) :
  In k (range 3) ->
  exists b f d,
    nth_error bottom_index (k + 1) = Some b
    /\ nth_error img_white b = Some f
    /\ nth_error dict_color_map b = Some d
    /\ shape0 f = shape0 f0
    /\ In d [d1; d2; d3].
Proof.
  unfold range. simpl. intros [<-|[<-|[<-|[]]]]; simpl.
  - exists b1, f1, d1. auto 6.
  - exists b2, f2, d2. auto 7.
  - exists b3, f3, d3. auto 8.
Qed.

Lemma combine_step_total (k : nat) (st : strip_state) :
  In k (range 3) ->
  shape0 (left_img st) = shape0 f0 ->
  exists st',
    combine_step img_white dict_color_map bottom_index top_index k st = Ok st'
    /\ shape0 (left_img st') = shape0 f0.
Proof.
  intros Hk Hrows.
  destruct (scanned_face k Hk) as (b & f & d & Hb & Hf & Hd & Hfr & _).
  unfold combine_step.
  rewrite (getitem_nth _ _ _ Hb). cbn [bind].
  rewrite (getitem_nth _ _ _ Hd). cbn [bind].
  destruct (keys_eqb (connect_color st) (_get_key d 3)); [|eauto].
  rewrite (getitem_nth _ _ _ Hf). cbn [bind].
  unfold concatenate1. rewrite Hrows, Hfr, Nat.eqb_refl. cbn [bind].
  rewrite (getitem_nth _ _ _ dict_top). cbn [bind].
  assert (Hnew : shape0 (map (fun ab : list pixel * list pixel => fst ab ++ snd ab)
                           (combine (left_img st) f)) = shape0 f0).
  { unfold shape0 in *. rewrite length_map, length_combine. lia. }
  destruct (keys_eqb (_get_key d 0) (_get_key dt 2)); eexists; split;
    try reflexivity; exact Hnew.
Qed.

(** C4, as the code has it.  A turn of the chaining at which the scanned
    face does not continue the connector raises nothing and leaves strip,
    connector and offset as they were.  Given four side faces of one
    height, strip building therefore always returns, whether the chain is
    complete or not; when no face continues the seed, the strip it returns
    is the seed alone. *)
Theorem chain_break_is_silent :
  (forall k b d st,
      nth_error bottom_index (k + 1) = Some b ->
      nth_error dict_color_map b = Some d ->
      connect_color st <> _get_key d 3 ->
      combine_step img_white dict_color_map bottom_index top_index k st
      = Ok st)
  /\ (exists st,
         combine_strip img_white dict_color_map bottom_index top_index = Ok st
         /\ shape0 (left_img st) = shape0 f0)
  /\ (_get_key d0 1 <> _get_key d1 3 ->
      _get_key d0 1 <> _get_key d2 3 ->
      _get_key d0 1 <> _get_key d3 3 ->
      combine_strip img_white dict_color_map bottom_index top_index
      = Ok (mkStrip f0 (_get_key d0 1) 0)).
Proof.
  split; [|split].
  - intros k b d st. apply combine_step_no_match.
  - unfold combine_strip, bottom_index. cbn [getitem nth_error bind].
    rewrite (getitem_nth _ _ _ face0), (getitem_nth _ _ _ dict0). cbn [bind].
    apply (for_each_total (fun st => shape0 (left_img st) = shape0 f0));
      [|reflexivity].
    intros _ st _ Hst.
    apply (for_each_total (fun st => shape0 (left_img st) = shape0 f0));
      [|exact Hst].
    intros k s Hk Hs. now apply combine_step_total.
  - intros H1 H2 H3.
    unfold combine_strip, bottom_index. cbn [getitem nth_error bind].
    rewrite (getitem_nth _ _ _ face0), (getitem_nth _ _ _ dict0). cbn [bind].
    set (s0 := mkStrip f0 (_get_key d0 1) 0).
    destruct (for_each_total (fun st => st = s0) (range 3)
                (fun (_ : nat) (st : strip_state) =>
                   for_each (range 3)
                     (combine_step img_white dict_color_map bottom_index
                        top_index) st)) with (s := s0)
      as (s' & Hrun & ->); [|reflexivity|exact Hrun].
    intros _ st _ ->.
    apply (for_each_total (fun st => st = s0)); [|reflexivity].
    intros k s Hk ->. exists s0. split; [|reflexivity].
    destruct (scanned_face k Hk) as (b & f & d & Hb & _ & Hd & _ & Hin).
    apply (combine_step_no_match _ _ _ _ _ _ _ _ Hb Hd).
    simpl in Hin. destruct Hin as [<-|[<-|[<-|[]]]]; assumption.
Qed.

End FourSides.

Lemma chain_break_is_silent_witness :
  combine_strip five_squares broken_maps [1; 0; 2; 3] 4
  = Ok (mkStrip (square (70, 200, 200)%Z) ["green"%string] 0).
Proof.
  refine (proj2 (proj2
            (chain_break_is_silent five_squares broken_maps 1 0 2 3 [] 4
               _ _ _ _ _ _ _ _ _
               eq_refl eq_refl eq_refl eq_refl eq_refl eq_refl eq_refl eq_refl
               eq_refl eq_refl eq_refl eq_refl)) _ _ _);
    discriminate.
Defined.

(** C4 fails as stated: on [broken_maps] face 1 continues the seed and no
    face continues face 1; the strip holds faces 0 and 1 only, and the net is
    assembled from it. *)
Lemma broken_chain_still_assembled :
  _type_division broken_maps = ([0; 1; 2; 3], 4)
  /\ chain_order broken_maps [0; 1; 2; 3] = Ok (["green"%string], [0; 1])
  /\ (st <- combine_strip five_squares broken_maps [0; 1; 2; 3] 4 ;;
      Ok (shape0 (left_img st), shape1 (left_img st)))
     = Ok (300, 600)
  /\ shape_of (assemble five_squares broken_maps) = Ok (600, 600)
  /\ ~ (forall img_white dict_color_map conn order,
           chain_order dict_color_map (fst (_type_division dict_color_map))
           = Ok (conn, order) ->
           length order < 4 ->
           exists e, assemble img_white dict_color_map = Raise e).
Proof.
  assert (Hrun : shape_of (assemble five_squares broken_maps) = Ok (600, 600))
    by (vm_compute; reflexivity).
  split; [reflexivity|]. split; [reflexivity|].
  split; [vm_compute; reflexivity|]. split; [exact Hrun|].
  intros Hclaim.
  destruct (Hclaim five_squares broken_maps ["green"%string] [0; 1])
    as [e He].
  - reflexivity.
  - simpl. lia.
  - rewrite He in Hrun. discriminate.
Qed.

(** ** The order of the strip *)

Lemma for_each_nested {K S : Type} (ks : list K) (body : K -> S -> result S) (s : S) :
  for_each (range 3) (fun _ st => for_each ks body st) s
  = for_each (ks ++ ks ++ ks) body s.
Proof.
  rewrite for_each_app. unfold range. simpl.
  destruct (for_each ks body s) as [s1|e]; simpl; [|reflexivity].
  rewrite for_each_app.
  destruct (for_each ks body s1) as [s2|e]; simpl; [|reflexivity].
  now destruct (for_each ks body s2).
Qed.

Lemma for_each_cons {K S : Type} (k : K) (ks : list K)
    (body : K -> S -> result S) (s : S) :
  for_each (k :: ks) body s = (s' <- body k s ;; for_each ks body s').
Proof. reflexivity. Qed.

(** A simulation between two loops over the same keys. *)
Lemma for_each_sim {K S T : Type} (R : S -> T -> Prop) (ks : list K)
    (f : K -> S -> result S) (g : K -> T -> result T) :
  (forall k s t s', In k ks -> R s t -> f k s = Ok s' ->
                    exists t', g k t = Ok t' /\ R s' t') ->
  forall s t s', R s t -> for_each ks f s = Ok s' ->
                 exists t', for_each ks g t = Ok t' /\ R s' t'.
Proof.
  induction ks as [|k ks IH]; intros Hstep s t s' HR Hrun; simpl in *.
  - injection Hrun as <-. eauto.
  - apply bind_Ok in Hrun as (s1 & H1 & H2).
    destruct (Hstep k s t s1 (or_introl eq_refl) HR H1) as (t1 & Hg & HR1).
    rewrite Hg. simpl.
    apply (IH (fun k' a b c Hin => Hstep k' a b c (or_intror Hin)) s1 t1 s' HR1 H2).
Qed.

Lemma concat_faces_snoc (img_white : list image) (acc : image)
    (order : list nat) (b : nat) :
  concat_faces img_white acc (order ++ [b])
  = (acc' <- concat_faces img_white acc order ;;
     face <- getitem img_white b ;;
     concatenate1 acc' face).
Proof.
  revert acc. induction order as [|a order IH]; intros acc; simpl.
  - destruct (getitem img_white b) as [face|e]; simpl; [|reflexivity].
    now destruct (concatenate1 acc face).
  - destruct (getitem img_white a) as [face|e]; simpl; [|reflexivity].
    destruct (concatenate1 acc face) as [acc'|e]; simpl; [apply IH | reflexivity].
Qed.

(** Whenever the strip is built, [chain_order] returns too, with the same
    connector, and the strip is the seed followed by the faces it lists. *)
Lemma strip_of_order (img_white : list image) (dict_color_map : list dict)
    (bottom_index : list nat) (top_index : nat) (st : strip_state) :
  combine_strip img_white dict_color_map bottom_index top_index = Ok st ->
  exists b0 seed order,
    nth_error bottom_index 0 = Some b0
    /\ nth_error img_white b0 = Some seed
    /\ chain_order dict_color_map bottom_index
       = Ok (connect_color st, b0 :: order)
    /\ concat_faces img_white seed order = Ok (left_img st).
Proof.
  unfold combine_strip, chain_order. intros H.
  apply bind_Ok in H as (b0 & Hb0 & H). rewrite Hb0. cbn [bind].
  apply bind_Ok in H as (seed & Hseed & H).
  apply bind_Ok in H as (d0 & Hd0 & H). rewrite Hd0. cbn [bind].
  exists b0, seed.
  set (Inv := fun (s : strip_state) (o : list string * list nat) =>
                connect_color s = fst o
                /\ exists tail, snd o = b0 :: tail
                                /\ concat_faces img_white seed tail
                                   = Ok (left_img s)).
  rewrite for_each_nested in H. rewrite for_each_nested.
  destruct (for_each_sim Inv (range 3 ++ range 3 ++ range 3)
              (combine_step img_white dict_color_map bottom_index top_index)
              (order_step dict_color_map bottom_index))
    with (s := mkStrip seed (_get_key d0 1) 0)
         (t := (_get_key d0 1, [b0])) (s' := st)
    as ([conn ord] & Hrun & Hconn & tail & Hord & Hcat).
  - clear. intros k s [c o] s' _ (Hc & tail & Ho & Hcat) Hstep.
    simpl in Hc, Ho. subst c o.
    unfold combine_step in Hstep. unfold order_step. cbn [fst snd].
    apply bind_Ok in Hstep as (b & Hb & Hstep). rewrite Hb. cbn [bind].
    apply bind_Ok in Hstep as (d & Hd & Hstep). rewrite Hd. cbn [bind].
    destruct (keys_eqb (connect_color s) (_get_key d 3)).
    + apply bind_Ok in Hstep as (face & Hface & Hstep).
      apply bind_Ok in Hstep as (left' & Hleft & Hstep).
      apply bind_Ok in Hstep as (dt & _ & Hstep).
      eexists. split; [reflexivity|].
      assert (Hcat' : concat_faces img_white seed (tail ++ [b]) = Ok left').
      { rewrite concat_faces_snoc, Hcat. cbn [bind]. now rewrite Hface. }
      destruct (keys_eqb (_get_key d 0) (_get_key dt 2));
        injection Hstep as <-; (split; [reflexivity|]);
        exists (tail ++ [b]); (split; [reflexivity | exact Hcat']).
    + injection Hstep as <-. eexists. split; [reflexivity|].
      split; [reflexivity|]. exists tail. split; [reflexivity | exact Hcat].
  - split; [reflexivity|]. exists []. split; reflexivity.
  - exact H.
  - simpl in Hconn, Hord. subst conn ord. exists tail.
    apply getitem_Ok in Hb0, Hseed. auto.
Qed.

Section Chaining.

Variables (dict_color_map : list dict).
Variables (b0 b1 b2 b3 : nat) (rest : list nat).
Variables (d0 d1 d2 d3 : dict).

Let bottom_index : list nat := b0 :: b1 :: b2 :: b3 :: rest.

Hypothesis dict0 : nth_error dict_color_map b0 = Some d0.
Hypothesis dict1 : nth_error dict_color_map b1 = Some d1.
Hypothesis dict2 : nth_error dict_color_map b2 = Some d2.
Hypothesis dict3 : nth_error dict_color_map b3 = Some d3.

Lemma order_step_scanned (j : nat) (st : list string * list nat) :
  j < 3 ->
  order_step dict_color_map bottom_index j st
  = if keys_eqb (fst st) (_get_key (scanned_dict d1 d2 d3 j) 3)
    then Ok (_get_key (scanned_dict d1 d2 d3 j) 1, snd st ++ [scanned_index b1 b2 b3 j])
    else Ok st.
Proof.
  intros Hj. unfold order_step, bottom_index.
  destruct j as [|[|[|j]]]; try lia; cbn [Nat.add getitem nth_error bind];
    unfold scanned_dict, scanned_index; cbn [nth].
  - now rewrite (getitem_nth _ _ _ dict1).
  - now rewrite (getitem_nth _ _ _ dict2).
  - now rewrite (getitem_nth _ _ _ dict3).
Qed.

(** The nine turns of the two loops. *)
Lemma chain_order_turns :
  chain_order dict_color_map bottom_index
  = for_each [0; 1; 2; 0; 1; 2; 0; 1; 2]
      (order_step dict_color_map bottom_index) (_get_key d0 1, [b0]).
Proof.
  unfold chain_order, bottom_index. cbn [getitem nth_error bind].
  rewrite (getitem_nth _ _ _ dict0). cbn [bind].
  now rewrite for_each_nested.
Qed.

(** Whatever is scanned afterwards, the faces already in the strip stay. *)
Lemma order_turns_extend (ks : list nat) (st : list string * list nat) :
  Forall (fun k => k < 3) ks ->
  exists conn tail,
    for_each ks (order_step dict_color_map bottom_index) st
    = Ok (conn, snd st ++ tail).
Proof.
  revert st. induction ks as [|k ks IH]; intros st Hks.
  - exists (fst st), []. simpl. rewrite app_nil_r. now destruct st.
  - inversion Hks as [|? ? Hk Hks']; subst. simpl.
    rewrite (order_step_scanned k st Hk).
    destruct (keys_eqb (fst st) (_get_key (scanned_dict d1 d2 d3 k) 3)); simpl.
    + destruct (IH (_get_key (scanned_dict d1 d2 d3 k) 1, snd st ++ [scanned_index b1 b2 b3 k]) Hks')
        as (conn & tail & Hrun).
      rewrite Hrun. simpl. rewrite <- app_assoc. eauto.
    + apply IH, Hks'.
Qed.


Ltac decide_match :=
  match goal with
  | |- context [keys_eqb ?a ?b] =>
      first [ rewrite (proj2 (keys_eqb_eq a b)) by congruence
            | rewrite (keys_eqb_neq a b) by congruence ]
  end.

Ltac turn :=
  rewrite for_each_cons;
  rewrite order_step_scanned by lia;
  unfold scanned_dict, scanned_index; cbn [fst snd nth];
  decide_match; cbn [bind app].

(** C5, as the code has it.  Each of the three passes scans the same three
    faces, positions 1 to 3 of the side list, in list order, whether already
    in the strip or not, and concatenates every face whose LEFT colours equal
    the connector of that moment, the connector changing at once.  The first
    face in list order that continues the seed is therefore the first one
    concatenated.  When the faces chain in some order without repetition
    (their LEFT colours are pairwise different and the last RIGHT colour
    continues into none of them), the strip holds the four side faces once
    each, in chain order.  The pixels of the strip are those of the seed
    followed by the faces [chain_order] lists. *)
Theorem chain_scans_every_face :
  (chain_order dict_color_map bottom_index
   = for_each [0; 1; 2; 0; 1; 2; 0; 1; 2]
       (order_step dict_color_map bottom_index) (_get_key d0 1, [b0]))
  /\ (forall j st,
        j < 3 ->
        order_step dict_color_map bottom_index j st
        = if keys_eqb (fst st) (_get_key (scanned_dict d1 d2 d3 j) 3)
          then Ok (_get_key (scanned_dict d1 d2 d3 j) 1,
                   snd st ++ [scanned_index b1 b2 b3 j])
          else Ok st)
  /\ (forall img_white top_index st,
        combine_strip img_white dict_color_map bottom_index top_index = Ok st ->
        exists seed order,
          nth_error img_white b0 = Some seed
          /\ chain_order dict_color_map bottom_index
             = Ok (connect_color st, b0 :: order)
          /\ concat_faces img_white seed order = Ok (left_img st))
  /\
  ((_get_key d0 1 = _get_key d1 3 ->
    exists conn tail,
      chain_order dict_color_map bottom_index = Ok (conn, b0 :: b1 :: tail))
   /\ (_get_key d0 1 <> _get_key d1 3 -> _get_key d0 1 = _get_key d2 3 ->
       exists conn tail,
         chain_order dict_color_map bottom_index = Ok (conn, b0 :: b2 :: tail))
   /\ (_get_key d0 1 <> _get_key d1 3 -> _get_key d0 1 <> _get_key d2 3 ->
       _get_key d0 1 = _get_key d3 3 ->
       exists conn tail,
         chain_order dict_color_map bottom_index = Ok (conn, b0 :: b3 :: tail)))
  /\ (forall p q r : nat,
      p < 3 -> q < 3 -> r < 3 -> p <> q -> p <> r -> q <> r ->
      _get_key d0 1 = _get_key (scanned_dict d1 d2 d3 p) 3 ->
      _get_key (scanned_dict d1 d2 d3 p) 1 = _get_key (scanned_dict d1 d2 d3 q) 3 ->
      _get_key (scanned_dict d1 d2 d3 q) 1 = _get_key (scanned_dict d1 d2 d3 r) 3 ->
      NoDup [_get_key d1 3; _get_key d2 3; _get_key d3 3] ->
      ~ In (_get_key (scanned_dict d1 d2 d3 r) 1)
           [_get_key d1 3; _get_key d2 3; _get_key d3 3] ->
      chain_order dict_color_map bottom_index
      = Ok (_get_key (scanned_dict d1 d2 d3 r) 1,
            [b0; scanned_index b1 b2 b3 p; scanned_index b1 b2 b3 q; scanned_index b1 b2 b3 r])).
Proof.
  split; [exact chain_order_turns|].
  split; [exact order_step_scanned|].
  split.
  { intros img_white top_index st Hst.
    destruct (strip_of_order _ _ _ _ _ Hst)
      as (b & seed & order & Hb & Hseed & Hord & Hcat).
    unfold bottom_index in Hb. simpl in Hb. injection Hb as <-.
    exists seed, order. auto. }
  split; [split; [|split]|].
  - intros E. rewrite chain_order_turns.
    turn.
    destruct (order_turns_extend [1; 2; 0; 1; 2; 0; 1; 2]
                (_get_key d1 1, [b0; b1])) as (conn & tail & ->).
    + repeat constructor; lia.
    + exists conn, tail. reflexivity.
  - intros N E. rewrite chain_order_turns.
    do 2 turn.
    destruct (order_turns_extend [2; 0; 1; 2; 0; 1; 2]
                (_get_key d2 1, [b0; b2])) as (conn & tail & ->).
    + repeat constructor; lia.
    + exists conn, tail. reflexivity.
  - intros N1 N2 E. rewrite chain_order_turns.
    do 3 turn.
    destruct (order_turns_extend [0; 1; 2; 0; 1; 2]
                (_get_key d3 1, [b0; b3])) as (conn & tail & ->).
    + repeat constructor; lia.
    + exists conn, tail. reflexivity.
  - intros p q r Hp Hq Hr Hpq Hpr Hqr E1 E2 E3 Hnd Hend.
    assert (N12 : _get_key d1 3 <> _get_key d2 3).
    { inversion Hnd as [|? ? Hn _]; subst. simpl in Hn. intuition congruence. }
    assert (N13 : _get_key d1 3 <> _get_key d3 3).
    { inversion Hnd as [|? ? Hn _]; subst. simpl in Hn. intuition congruence. }
    assert (N23 : _get_key d2 3 <> _get_key d3 3).
    { inversion Hnd as [|? ? _ Hnd']; subst.
      inversion Hnd' as [|? ? Hn _]; subst. simpl in Hn. intuition congruence. }
    assert (M1 : _get_key (scanned_dict d1 d2 d3 r) 1 <> _get_key d1 3)
      by (simpl in Hend; intuition congruence).
    assert (M2 : _get_key (scanned_dict d1 d2 d3 r) 1 <> _get_key d2 3)
      by (simpl in Hend; intuition congruence).
    assert (M3 : _get_key (scanned_dict d1 d2 d3 r) 1 <> _get_key d3 3)
      by (simpl in Hend; intuition congruence).
    clear Hnd Hend.
    rewrite chain_order_turns.
    destruct p as [|[|[|p]]]; try lia;
      destruct q as [|[|[|q]]]; try lia;
      destruct r as [|[|[|r]]]; try lia;
      unfold scanned_dict, scanned_index in *; cbn [nth] in *;
      do 9 turn; reflexivity.
Qed.

End Chaining.

Lemma chain_scans_every_face_witness :
  chain_order chained_maps [0; 1; 2; 3] = Ok (["orange"%string], [0; 1; 2; 3]).
Proof.
  refine (proj2 (proj2 (proj2 (proj2
            (chain_scans_every_face chained_maps 0 1 2 3 [] _ _ _ _
               eq_refl eq_refl eq_refl eq_refl))))
            0 1 2 _ _ _ _ _ _ _ _ _ _ _);
    try lia; try reflexivity.
  - repeat constructor; simpl; intuition discriminate.
  - simpl. intuition discriminate.
Defined.

(** C5 fails as stated: on [looping_maps] faces 1 and 2 continue each other,
    every pass concatenates both again, and the strip of the assembled net
    holds face 1 and face 2 three times and face 3 not at all. *)
Lemma looping_chain_repeats_faces :
  _type_division looping_maps = ([0; 1; 2; 3], 4)
  /\ chain_order looping_maps [0; 1; 2; 3]
     = Ok (["yellow"%string], [0; 1; 2; 1; 2; 1; 2])
  /\ shape_of (assemble five_squares looping_maps) = Ok (600, 2100)
  /\ (r <- assemble five_squares looping_maps ;;
      Ok [at_px r 300 0; at_px r 300 300; at_px r 300 600; at_px r 300 900;
          at_px r 300 1200; at_px r 300 1500; at_px r 300 1800])
     = Ok [Some (20, 200, 200); Some (70, 200, 200); Some (110, 200, 200);
           Some (70, 200, 200); Some (110, 200, 200); Some (70, 200, 200);
           Some (110, 200, 200)]%Z
  /\ ~ (forall img_white dict_color_map conn order,
           chain_order dict_color_map (fst (_type_division dict_color_map))
           = Ok (conn, order) ->
           (exists r, assemble img_white dict_color_map = Ok r) ->
           NoDup order).
Proof.
  assert (Hrun : shape_of (assemble five_squares looping_maps) = Ok (600, 2100))
    by (vm_compute; reflexivity).
  split; [reflexivity|]. split; [reflexivity|]. split; [exact Hrun|].
  split; [vm_compute; reflexivity|].
  intros Hclaim.
  assert (Hdup : NoDup [0; 1; 2; 1; 2; 1; 2]).
  { apply (Hclaim five_squares looping_maps ["yellow"%string]); [reflexivity|].
    destruct (assemble five_squares looping_maps) as [r|e];
      [eauto | discriminate]. }
  inversion Hdup as [|? ? _ Hdup1]; subst.
  inversion Hdup1 as [|? ? Hnotin _]; subst.
  apply Hnotin. simpl. auto.
Qed.

(** ** Resizing in place *)

Lemma setitem_list_Ok {A : Type} (l l' : list A) (i : nat) (x : A) :
  setitem_list l i x = Ok l' ->
  length l' = length l
  /\ nth_error l' i = Some x
  /\ forall j, j <> i -> nth_error l' j = nth_error l j.
Proof.
  unfold setitem_list. destruct (i <? length l) eqn:E; [|discriminate].
  apply Nat.ltb_lt in E.
  remember (skipn (S i) l) as tail eqn:Et.
  intros H. injection H as <-.
  assert (Hfirst : length (firstn i l) = i) by (rewrite length_firstn; lia).
  assert (Htail : length tail = length l - S i)
    by (rewrite Et; apply length_skipn).
  split; [|split].
  - rewrite length_app. cbn [length]. lia.
  - rewrite nth_error_app2 by lia. now rewrite Hfirst, Nat.sub_diag.
  - intros j Hj. destruct (Nat.lt_ge_cases j i) as [Hlt|Hge].
    + rewrite nth_error_app1 by lia. rewrite nth_error_firstn.
      apply Nat.ltb_lt in Hlt. now rewrite Hlt.
    + rewrite nth_error_app2 by lia. rewrite Hfirst.
      replace (j - i) with (S (j - S i)) by lia. cbn [nth_error].
      rewrite Et, nth_error_skipn. f_equal. lia.
Qed.

Lemma setitem_list_total {A : Type} (l : list A) (i : nat) (x : A) :
  i < length l -> exists l', setitem_list l i x = Ok l'.
Proof.
  intros H. unfold setitem_list. apply Nat.ltb_lt in H. rewrite H. eauto.
Qed.

Lemma shape0_grid {A : Type} (h w : nat) (f : nat -> nat -> A) :
  shape0 (grid h w f) = h.
Proof. unfold shape0, grid. now rewrite length_map, length_seq. Qed.

Lemma shape1_grid {A : Type} (h w : nat) (f : nat -> nat -> A) :
  0 < h -> shape1 (grid h w f) = w.
Proof.
  intros H. destruct h as [|h]; [lia|].
  unfold shape1, grid. cbn [seq map]. now rewrite length_map, length_seq.
Qed.

Section InPlace.

Variable interp : image -> nat -> nat -> nat -> nat -> pixel.

Lemma resized_rows (img img' : image) :
  resized interp img = Ok img' -> shape0 img' = image_height.
Proof.
  unfold resized, resize. destruct (shape0 img =? 0); [discriminate|].
  match goal with |- context [if ?c then _ else _] => destruct c end;
    [discriminate|].
  intros H. injection H as <-. apply shape0_grid.
Qed.

Lemma resize_step_Ok (imgs : loc) (index : nat) (hp hp' : heap) :
  resize_step interp imgs index hp = Ok hp' ->
  exists cell img img' cell',
    nth_error hp imgs = Some cell
    /\ nth_error cell index = Some img
    /\ resized interp img = Ok img'
    /\ setitem_list cell index img' = Ok cell'
    /\ setitem_list hp imgs cell' = Ok hp'.
Proof.
  unfold resize_step. intros H.
  apply bind_Ok in H as (cell & Hcell & H).
  apply bind_Ok in H as (img & Himg & H).
  unfold resized.
  destruct (shape0 img =? 0) eqn:E0; [discriminate|].
  apply bind_Ok in H as (img' & Hres & H).
  apply bind_Ok in H as (cell' & Hset & H).
  apply getitem_Ok in Hcell, Himg.
  exists cell, img, img', cell'. rewrite E0. repeat split; assumption.
Qed.

Lemma resize_loop (imgs : loc) (ks : list nat) :
  NoDup ks ->
  forall (hp hp' : heap) (cell : list image),
    nth_error hp imgs = Some cell ->
    for_each ks (resize_step interp imgs) hp = Ok hp' ->
    length hp' = length hp
    /\ (forall l, l <> imgs -> nth_error hp' l = nth_error hp l)
    /\ exists cell',
        nth_error hp' imgs = Some cell'
        /\ length cell' = length cell
        /\ (forall i, ~ In i ks -> nth_error cell' i = nth_error cell i)
        /\ (forall i img, In i ks -> nth_error cell i = Some img ->
              exists img', nth_error cell' i = Some img'
                           /\ resized interp img = Ok img').
Proof.
  induction ks as [|k ks IH]; intros Hnd hp hp' cell Hcell Hrun.
  - simpl in Hrun. injection Hrun as <-.
    split; [reflexivity|]. split; [reflexivity|].
    exists cell. repeat split; auto. intros i img [].
  - inversion Hnd as [|? ? Hk Hnd']; subst.
    simpl in Hrun. apply bind_Ok in Hrun as (hp1 & Hstep & Hrun).
    apply resize_step_Ok in Hstep
      as (cell0 & img & img' & cell1 & Hc0 & Himg & Hres & Hset1 & Hset2).
    rewrite Hcell in Hc0. injection Hc0 as <-.
    apply setitem_list_Ok in Hset1 as (Hlen1 & Hat1 & Hother1).
    apply setitem_list_Ok in Hset2 as (Hlen2 & Hat2 & Hother2).
    destruct (IH Hnd' hp1 hp' cell1 Hat2 Hrun)
      as (Hlen & Hothers & cell' & Hcell' & Hlen' & Hout & Hin).
    split; [lia|]. split.
    + intros l Hl. rewrite Hothers by exact Hl. now apply Hother2.
    + exists cell'. split; [exact Hcell'|]. split; [lia|]. split.
      * intros i Hi. simpl in Hi.
        rewrite Hout by tauto. apply Hother1. intros ->. tauto.
      * intros i img0 [<-|Hi] Hi0.
        -- rewrite Hout by exact Hk. rewrite Hat1.
           rewrite Himg in Hi0. injection Hi0 as <-. eauto.
        -- apply Hin; [exact Hi|].
           rewrite Hother1; [exact Hi0|]. intros ->. contradiction.
Qed.

Lemma resized_total (img : image) :
  resizable img -> exists img', resized interp img = Ok img' /\ resizable img'.
Proof.
  intros [Hrows Hcols]. unfold resized, resize.
  assert (Hc : 0 < shape1 img).
  { destruct (Nat.eq_dec (shape1 img) 0) as [E|E]; [|lia].
    rewrite E, Nat.mul_0_l in Hcols. lia. }
  assert (Hw : shape1 img * image_height / shape0 img <> 0).
  { apply Nat.neq_0_lt_0, Nat.div_str_pos. split; assumption. }
  destruct (shape0 img =? 0) eqn:E0; [apply Nat.eqb_eq in E0; lia|].
  destruct (shape1 img * image_height / shape0 img =? 0) eqn:E1;
    [apply Nat.eqb_eq in E1; contradiction|].
  destruct (shape1 img =? 0) eqn:E2; [apply Nat.eqb_eq in E2; lia|].
  cbn [orb image_height Nat.eqb].
  eexists. split; [reflexivity|].
  unfold resizable. rewrite shape0_grid, shape1_grid.
  - split; [unfold image_height; lia|]. apply Nat.le_mul_l, Hw.
  - unfold image_height. lia.
Qed.

Lemma resize_step_total (imgs : loc) (n index : nat) (hp : heap) :
  index < n ->
  (exists cell, nth_error hp imgs = Some cell /\ length cell = n
                /\ Forall resizable cell) ->
  exists hp',
    resize_step interp imgs index hp = Ok hp'
    /\ exists cell, nth_error hp' imgs = Some cell /\ length cell = n
                    /\ Forall resizable cell.
Proof.
  intros Hlt (cell & Hcell & Hlen & Hall).
  unfold resize_step. rewrite (getitem_nth _ _ _ Hcell). cbn [bind].
  destruct (nth_error cell index) as [img|] eqn:Himg;
    [|apply nth_error_None in Himg; lia].
  rewrite (getitem_nth _ _ _ Himg). cbn [bind].
  assert (Hok : resizable img).
  { rewrite Forall_forall in Hall. apply Hall. eapply nth_error_In, Himg. }
  destruct (resized_total img Hok) as (img' & Hres & Hok').
  unfold resized in Hres.
  destruct (shape0 img =? 0); [discriminate|]. rewrite Hres. cbn [bind].
  destruct (setitem_list_total cell index img') as [cell' Hset]; [lia|].
  rewrite Hset. cbn [bind].
  destruct (setitem_list_total hp imgs cell') as [hp' Hset'].
  { apply nth_error_Some. congruence. }
  exists hp'. split; [exact Hset'|].
  apply setitem_list_Ok in Hset as (Hlen1 & Hat1 & Hother1).
  apply setitem_list_Ok in Hset' as (_ & Hat2 & _).
  exists cell'. split; [exact Hat2|]. split; [lia|].
  apply Forall_forall. intros x Hx.
  apply In_nth_error in Hx as [j Hj].
  destruct (Nat.eq_dec j index) as [->|Hne].
  - rewrite Hat1 in Hj. now injection Hj as <-.
  - rewrite Hother1 in Hj by exact Hne.
    rewrite Forall_forall in Hall. apply Hall. eapply nth_error_In, Hj.
Qed.

Lemma reading_frame {A : Type} (f : list image -> result A) (imgs : loc)
    (hp hp' : heap) (a : A) :
  reading f imgs hp = Ok (a, hp') -> hp' = hp.
Proof.
  unfold reading. intros H.
  apply bind_Ok in H as (cell & _ & H).
  apply bind_Ok in H as (a' & _ & H).
  now injection H as _ <-.
Qed.

(** C8, as the code has it.  [_resize_imgs] is not free of side effects: it
    returns the very list it was given, after storing in each of its slots
    the image resized to the common height, [image_height] rows; the other
    lists of the heap are left alone, and on a list of images that
    [cv2.resize] accepts the call always returns.  Mask filtering, cropping,
    colour detection and assembly leave every list they find as it was
    (cropping adds a list of its own). *)
Theorem resize_overwrites_list :
  (forall (imgs : loc) (hp hp' : heap) (returned : loc),
      _resize_imgs interp imgs hp = Ok (returned, hp') ->
      returned = imgs
      /\ length hp' = length hp
      /\ (forall l, l <> imgs -> nth_error hp' l = nth_error hp l)
      /\ exists cell cell',
          nth_error hp imgs = Some cell
          /\ nth_error hp' imgs = Some cell'
          /\ length cell' = length cell
          /\ forall i img, nth_error cell i = Some img ->
               exists img', nth_error cell' i = Some img'
                            /\ resized interp img = Ok img'
                            /\ shape0 img' = image_height)
  /\ (forall (imgs : loc) (hp : heap) (cell : list image),
         nth_error hp imgs = Some cell ->
         Forall resizable cell ->
         exists hp', _resize_imgs interp imgs hp = Ok (imgs, hp'))
  /\ (forall (lower upper : pixel) (findContours : mask -> list contour)
             (dict_color_map : list dict) (bottom_index : list nat)
             (top_index : nat) (imgs : loc) (hp : heap),
         (forall masks hp',
             _filter_color_at lower upper imgs hp = Ok (masks, hp') -> hp' = hp)
         /\ (forall img_white hp',
                _cut_imgs_at imgs hp = Ok (img_white, hp') ->
                img_white = length hp /\ firstn (length hp) hp' = hp)
         /\ (forall detected hp',
                _color_detect_at findContours imgs hp = Ok (detected, hp') ->
                hp' = hp)
         /\ (forall net hp',
                _combine_imgs_at dict_color_map bottom_index top_index imgs hp
                = Ok (net, hp') ->
                hp' = hp)).
Proof.
  split; [|split].
  - intros imgs hp hp' returned H. unfold _resize_imgs in H.
    apply bind_Ok in H as (cell & Hcell & H).
    apply bind_Ok in H as (hp1 & Hrun & H).
    injection H as <- <-. apply getitem_Ok in Hcell.
    destruct (resize_loop imgs (range (length cell)) (seq_NoDup _ _)
                hp hp1 cell Hcell Hrun)
      as (Hlen & Hothers & cell' & Hcell' & Hlen' & _ & Hin).
    split; [reflexivity|]. split; [exact Hlen|]. split; [exact Hothers|].
    exists cell, cell'. repeat (split; [assumption|]).
    intros i img Hi.
    destruct (Hin i img) as (img' & Hi' & Hres); [|exact Hi|].
    + apply in_seq. split; [lia|]. simpl.
      apply nth_error_Some. congruence.
    + exists img'. repeat split; try assumption.
      now apply resized_rows in Hres.
  - intros imgs hp cell Hcell Hall. unfold _resize_imgs.
    rewrite (getitem_nth _ _ _ Hcell). cbn [bind].
    destruct (for_each_total
                (fun h : heap => exists c, nth_error h imgs = Some c
                                    /\ length c = length cell
                                    /\ Forall resizable c)
                (range (length cell)) (resize_step interp imgs))
      with (s := hp) as (hp' & Hrun & _).
    + intros k h Hk Hh. apply (resize_step_total imgs (length cell)); [|exact Hh].
      apply in_seq in Hk. lia.
    + exists cell. auto.
    + exists hp'. now rewrite Hrun.
  - intros lower upper findContours dict_color_map bottom_index top_index
      imgs hp.
    split; [|split; [|split]].
    + intros masks hp'. apply reading_frame.
    + intros img_white hp' H. unfold _cut_imgs_at in H.
      apply bind_Ok in H as (cell & _ & H).
      apply bind_Ok in H as (fresh & _ & H).
      injection H as <- <-. split; [reflexivity|].
      now rewrite firstn_app, Nat.sub_diag, firstn_all, app_nil_r.
    + intros detected hp'. apply reading_frame.
    + intros net hp'. apply reading_frame.
Qed.

End InPlace.

Lemma resize_overwrites_list_witness :
  _resize_imgs nearest 0 [[full 150 1 (20, 200, 200)%Z]]
  = Ok (0, [[full 300 2 (20, 200, 200)%Z]])
  /\ length [[full 300 2 (20, 200, 200)%Z]]
     = length [[full 150 1 (20, 200, 200)%Z]].
Proof.
  assert (H : _resize_imgs nearest 0 [[full 150 1 (20, 200, 200)%Z]]
              = Ok (0, [[full 300 2 (20, 200, 200)%Z]]))
    by (vm_compute; reflexivity).
  split; [exact H|].
  exact (proj1 (proj2 (proj1 (resize_overwrites_list nearest) 0 _ _ 0 H))).
Defined.

(** C8 fails as stated: after [_resize_imgs], the list the caller handed
    over holds the resized image, 300 x 200, where the 150 x 100 photograph
    was, and it is that same list that is returned. *)
Lemma resize_mutates_callers_list :
  map (map (fun a : image => (shape0 a, shape1 a))) [[small_photo]]
  = [[(150, 100)]]
  /\ (r <- _resize_imgs nearest 0 [[small_photo]] ;;
      Ok (fst r, map (map (fun a : image => (shape0 a, shape1 a))) (snd r)))
     = Ok (0, [[(300, 200)]])
  /\ ~ (forall interp imgs hp returned hp',
           _resize_imgs interp imgs hp = Ok (returned, hp') -> hp' = hp).
Proof.
  assert (Hrun : (r <- _resize_imgs nearest 0 [[small_photo]] ;;
                  Ok (fst r,
                      map (map (fun a : image => (shape0 a, shape1 a))) (snd r)))
                 = Ok (0, [[(300, 200)]]))
    by (vm_compute; reflexivity).
  split; [reflexivity|]. split; [exact Hrun|].
  intros Hclaim.
  destruct (_resize_imgs nearest 0 [[small_photo]]) as [[returned hp']|e] eqn:E;
    [|discriminate].
  rewrite (Hclaim nearest 0 [[small_photo]] returned hp' E) in Hrun.
  discriminate.
Qed.

(** ** Determinism *)

Lemma alike_bind {A B C D : Type} (R : A -> B -> Prop) (Q : C -> D -> Prop)
    (x : result A) (y : result B) (f : A -> result C) (g : B -> result D) :
  alike R x y ->
  (forall a b, R a b -> alike Q (f a) (g b)) ->
  alike Q (bind x f) (bind y g).
Proof.
  destruct x as [a|e], y as [b|e']; simpl; intros H Hfg; try contradiction.
  - now apply Hfg.
  - exact H.
Qed.

Lemma alike_for_each {K S T : Type} (R : S -> T -> Prop) (ks : list K)
    (f : K -> S -> result S) (g : K -> T -> result T) :
  (forall k s t, In k ks -> R s t -> alike R (f k s) (g k t)) ->
  forall s t, R s t -> alike R (for_each ks f s) (for_each ks g t).
Proof.
  induction ks as [|k ks IH]; intros Hstep s t HR; simpl; [exact HR|].
  apply alike_bind with (R := R).
  - apply Hstep; [now left | exact HR].
  - intros a b Hab. apply IH; [|exact Hab].
    intros k' s' t' Hin. apply Hstep. now right.
Qed.

Lemma alike_getitem_rows (imgs imgs' : list image) (b : nat) :
  map shape0 imgs = map shape0 imgs' ->
  alike (fun f f' : image => shape0 f = shape0 f')
    (getitem imgs b) (getitem imgs' b).
Proof.
  intros H. unfold getitem.
  assert (Hb : option_map (@shape0 pixel) (@nth_error image imgs b)
               = option_map (@shape0 pixel) (@nth_error image imgs' b)).
  { rewrite <- !nth_error_map. f_equal. exact H. }
  destruct (@nth_error image imgs b), (@nth_error image imgs' b);
    simpl in *; congruence.
Qed.

Lemma alike_eq {A : Type} (x y : result A) : alike eq x y -> x = y.
Proof.
  destruct x, y; simpl; intros H; try contradiction; now subst.
Qed.

(** The strip states of two runs on face images of the same heights agree
    in everything but the pixels. *)
Lemma combine_strip_rows (imgs imgs' : list image) (dict_color_map : list dict)
    (bottom_index : list nat) (top_index : nat) :
  map shape0 imgs = map shape0 imgs' ->
  alike same_resolution
    (combine_strip imgs dict_color_map bottom_index top_index)
    (combine_strip imgs' dict_color_map bottom_index top_index).
Proof.
  intros Hrows. unfold combine_strip.
  destruct (getitem bottom_index 0) as [b0|e]; cbn [bind]; [|reflexivity].
  apply alike_bind with (R := fun f f' : image => shape0 f = shape0 f');
    [now apply alike_getitem_rows|].
  intros seed seed' Hseed.
  destruct (getitem dict_color_map b0) as [d0|e]; cbn [bind]; [|reflexivity].
  apply alike_for_each; [|now repeat split].
  intros _ s t _ Hst. apply alike_for_each; [|exact Hst].
  clear s t Hst. intros k s t _ (Hrow & Hconn & Htop).
  unfold combine_step.
  destruct (getitem bottom_index (k + 1)) as [b|e]; cbn [bind]; [|reflexivity].
  destruct (getitem dict_color_map b) as [d|e]; cbn [bind]; [|reflexivity].
  rewrite <- Hconn.
  destruct (keys_eqb (connect_color s) (_get_key d 3));
    [|now repeat split].
  apply alike_bind with (R := fun f f' : image => shape0 f = shape0 f');
    [now apply alike_getitem_rows|].
  intros face face' Hface.
  apply alike_bind with (R := fun l l' : image =>
                                shape0 l = shape0 l'
                                /\ shape0 l = shape0 face).
  - unfold concatenate1. rewrite <- Hrow, <- Hface.
    destruct (shape0 (left_img s) =? shape0 face) eqn:E; simpl; [|reflexivity].
    apply Nat.eqb_eq in E.
    unfold shape0 in *. rewrite !length_map, !length_combine. lia.
  - intros l l' [Hl Hlf].
    destruct (getitem dict_color_map top_index) as [dt|e]; cbn [bind];
      [|reflexivity].
    destruct (keys_eqb (_get_key d 0) (_get_key dt 2)); simpl;
      unfold same_resolution; simpl; repeat split; try assumption.
    rewrite <- Hl, <- Hface. reflexivity.
Qed.

(** C9.  Role partition and chain resolution are a function of their
    input: two runs on the same five dictionaries and the same face images
    end alike, with the same side-face order, the same top index and the same
    offset, or with the same exception.  The outcome does not even depend on
    the pixels: face images of the same heights give the same result. *)
Theorem resolution_deterministic :
  (forall (img_white : list image) (dict_color_map : list dict)
          (first second : result (list nat * nat * Z)),
      resolution img_white dict_color_map = first ->
      resolution img_white dict_color_map = second ->
      first = second)
  /\ (forall (img_white img_white' : list image) (dict_color_map : list dict),
         map shape0 img_white = map shape0 img_white' ->
         resolution img_white dict_color_map
         = resolution img_white' dict_color_map).
Proof.
  split.
  - intros img_white dict_color_map first second <- <-. reflexivity.
  - intros img_white img_white' dict_color_map Hrows.
    unfold resolution.
    destruct (_type_division dict_color_map) as [bottom_index top_index].
    apply alike_eq.
    apply alike_bind with (R := same_resolution);
      [now apply combine_strip_rows|].
    intros s t (_ & _ & Htop).
    destruct (chain_order dict_color_map bottom_index) as [order|e];
      simpl; [now rewrite Htop | reflexivity].
Qed.

Lemma resolution_deterministic_witness :
  resolution five_squares chained_maps = Ok ([0; 1; 2; 3], 4, 0%Z)
  /\ Ok ([0; 1; 2; 3], 4, 0%Z) = resolution five_squares chained_maps.
Proof.
  assert (H : resolution five_squares chained_maps = Ok ([0; 1; 2; 3], 4, 0%Z))
    by (vm_compute; reflexivity).
  split; [exact H|].
  exact (proj1 resolution_deterministic five_squares chained_maps _ _ H eq_refl).
Defined.

(** * Further properties of the code *)

(** ** Dictionaries and [_get_key] *)

Lemma In_get_key (d : dict) (v : Z) (k : string) :
  In k (_get_key d v) <-> In (k, v) d.
Proof.
  unfold _get_key. rewrite in_map_iff. split.
  - intros ([k' x] & E & Hin). simpl in E. subst k'.
    apply filter_In in Hin as [Hin Hv]. simpl in Hv.
    apply Z.eqb_eq in Hv. now subst x.
  - intros Hin. exists (k, v). split; [reflexivity|].
    apply filter_In. split; [exact Hin|]. simpl. apply Z.eqb_refl.
Qed.

Lemma In_keys (d : dict) (k : string) (v : Z) : In (k, v) d -> In k (keys d).
Proof. intros H. unfold keys. apply in_map_iff. exists (k, v). auto. Qed.

Lemma keys_functional (d : dict) (k : string) (v v' : Z) :
  NoDup (keys d) -> In (k, v) d -> In (k, v') d -> v = v'.
Proof.
  induction d as [|[k0 x] d IH]; intros Hnd H1 H2; [contradiction|].
  simpl in Hnd. inversion Hnd as [|? ? Hk0 Hnd']; subst.
  destruct H1 as [E1|H1], H2 as [E2|H2].
  - congruence.
  - injection E1 as -> ->. exfalso. apply Hk0. exact (In_keys _ _ _ H2).
  - injection E2 as -> ->. exfalso. apply Hk0. exact (In_keys _ _ _ H1).
  - now apply IH.
Qed.

Lemma NoDup_get_key (d : dict) (v : Z) : NoDup (keys d) -> NoDup (_get_key d v).
Proof.
  unfold _get_key, keys. induction d as [|[k x] d IH]; intros Hnd; simpl.
  - constructor.
  - inversion Hnd as [|? ? Hk Hnd']; subst.
    destruct (x =? v)%Z; simpl; [|now apply IH].
    constructor; [|now apply IH].
    intros Hin. apply Hk. apply in_map_iff in Hin as (p & E & Hp).
    apply filter_In in Hp as [Hp _]. apply in_map_iff. eauto.
Qed.

(** X1.  In a dictionary, [_get_key] returns exactly the keys stored with the
    value asked for, each once, and no key is returned for two values. *)
Theorem get_key_partitions_keys (d : dict) :
  NoDup (keys d) ->
  (forall k v, In k (_get_key d v) <-> In (k, v) d)
  /\ (forall v, NoDup (_get_key d v))
  /\ (forall k v v', In k (_get_key d v) -> In k (_get_key d v') -> v = v').
Proof.
  intros Hnd. split; [|split].
  - intros k v. apply In_get_key.
  - intros v. now apply NoDup_get_key.
  - intros k v v' H1 H2. apply In_get_key in H1, H2.
    exact (keys_functional d k v v' Hnd H1 H2).
Qed.

Lemma get_key_partitions_keys_witness :
  NoDup (_get_key [("yellow"%string, 3%Z); ("green"%string, 1%Z)] 1).
Proof.
  refine (proj1 (proj2 (get_key_partitions_keys
            [("yellow"%string, 3%Z); ("green"%string, 1%Z)] _)) 1%Z).
  repeat constructor; simpl; intuition discriminate.
Defined.

Lemma keys_setitem (d : dict) (k : string) (v : Z) :
  keys (setitem_dict d k v) = if existsb (String.eqb k) (keys d)
                               then keys d else keys d ++ [k].
Proof.
  unfold keys. induction d as [|[k0 x] d IH]; simpl; [reflexivity|].
  rewrite (String.eqb_sym k k0).
  destruct (String.eqb k0 k) eqn:E; simpl.
  - apply String.eqb_eq in E. now subst.
  - rewrite IH. now destruct (existsb (String.eqb k) (map fst d)).
Qed.

Lemma In_setitem (d : dict) (k k' : string) (v v' : Z) :
  NoDup (keys d) ->
  In (k', v') (setitem_dict d k v)
  <-> (k' = k /\ v' = v) \/ (k' <> k /\ In (k', v') d).
Proof.
  induction d as [|[k0 x] d IH]; intros Hnd; simpl.
  - split.
    + intros [E|[]]. injection E as <- <-. auto.
    + intros [[-> ->]|[_ []]]. auto.
  - simpl in Hnd. inversion Hnd as [|? ? Hk0 Hnd']; subst.
    destruct (String.eqb k0 k) eqn:E.
    + apply String.eqb_eq in E. subst k0. simpl. split.
      * intros [E|Hin]; [injection E as <- <-; auto|].
        right. split; [|auto].
        intros ->. apply Hk0. exact (In_keys _ _ _ Hin).
      * intros [[-> ->]|[Hne [E|Hin]]]; auto.
        injection E as <- _. contradiction.
    + apply String.eqb_neq in E. simpl. rewrite (IH Hnd'). split.
      * intros [Eq|[H|[Hne Hin]]]; auto.
        injection Eq as <- <-. auto.
      * intros [H|[Hne [Eq|Hin]]]; auto.
Qed.

Lemma NoDup_keys_setitem (d : dict) (k : string) (v : Z) :
  NoDup (keys d) -> NoDup (keys (setitem_dict d k v)).
Proof.
  intros Hnd. rewrite keys_setitem.
  destruct (existsb (String.eqb k) (keys d)) eqn:E; [exact Hnd|].
  apply NoDup_app; [exact Hnd | repeat constructor; auto |].
  intros a Ha [Ea|[]]. subst a.
  assert (Hex : existsb (String.eqb k) (keys d) = true).
  { apply existsb_exists. exists k. split; [exact Ha | apply String.eqb_refl]. }
  congruence.
Qed.

(** X2.  Storing a position for a colour in a dictionary and reading the
    dictionary back: the colour is returned for the position stored and for
    no other, the other colours are returned as before, and the dictionary
    grows by one entry exactly when the colour is new, which then comes
    last. *)
Theorem setitem_then_get_key (d : dict) (color : string) (position : Z) :
  NoDup (keys d) ->
  NoDup (keys (setitem_dict d color position))
  /\ In color (_get_key (setitem_dict d color position) position)
  /\ (forall v, v <> position ->
                ~ In color (_get_key (setitem_dict d color position) v))
  /\ (forall k v, k <> color ->
         (In k (_get_key (setitem_dict d color position) v)
          <-> In k (_get_key d v)))
  /\ (In color (keys d) ->
      keys (setitem_dict d color position) = keys d)
  /\ (~ In color (keys d) ->
      keys (setitem_dict d color position) = keys d ++ [color]).
Proof.
  intros Hnd.
  split; [now apply NoDup_keys_setitem|].
  split; [apply In_get_key, In_setitem; auto|].
  split.
  { intros v Hv Hin. apply In_get_key, In_setitem in Hin; [|exact Hnd].
    destruct Hin as [[_ E]|[Hne _]]; congruence. }
  split.
  { intros k v Hk. rewrite !In_get_key, (In_setitem _ _ _ _ _ Hnd).
    split; [intros [[E _]|[_ H]]; [contradiction | exact H] | auto]. }
  rewrite keys_setitem.
  split; intros Hin.
  - assert (E : existsb (String.eqb color) (keys d) = true).
    { apply existsb_exists. exists color. split; [exact Hin|apply String.eqb_refl]. }
    now rewrite E.
  - destruct (existsb (String.eqb color) (keys d)) eqn:E; [|reflexivity].
    apply existsb_exists in E as (x & Hx & Ex).
    apply String.eqb_eq in Ex. subst x. contradiction.
Qed.

Lemma setitem_then_get_key_witness :
  In "green"%string
    (_get_key (setitem_dict [("yellow"%string, 3%Z)] "green" 1) 1).
Proof.
  refine (proj1 (proj2 (setitem_then_get_key [("yellow"%string, 3%Z)]
                          "green"%string 1%Z _))).
  repeat constructor; simpl; intuition discriminate.
Defined.

(** ** Cropping *)

Lemma combine_map_r {A B : Type} (g : A -> B) (l : list A) :
  combine l (map g l) = map (fun x => (x, g x)) l.
Proof. induction l as [|x l IH]; simpl; [reflexivity | now rewrite IH]. Qed.

Lemma bitwise_and_inRange (a : image) (lower upper : pixel) :
  bitwise_and_self a (inRange a lower upper)
  = Ok (map (map (fun p : pixel =>
                    if in_bounds lower upper p then p else (0, 0, 0)%Z)) a).
Proof.
  unfold bitwise_and_self, same_shape.
  destruct (shape_inRange a lower upper) as [-> ->].
  rewrite !Nat.eqb_refl. cbn [andb]. apply f_equal.
  unfold inRange. rewrite combine_map_r, map_map.
  apply map_ext. intros row. cbn [fst snd].
  rewrite combine_map_r, map_map.
  apply map_ext. intros p. cbn [fst snd].
  now destruct (in_bounds lower upper p).
Qed.

Lemma cut_imgs_map (imgs : list image) :
  5 <= length imgs -> _cut_imgs imgs = Ok (map cropped (firstn 5 imgs)).
Proof.
  intros H.
  destruct imgs as [|a [|b [|c [|d [|e rest]]]]]; simpl in H; try lia.
  unfold _cut_imgs. cbn [range seq for_each].
  cbn [getitem nth_error bind].
  rewrite filter_color_map by (simpl; lia).
  cbn [firstn map getitem nth_error bind].
  repeat (rewrite bitwise_and_inRange; cbn [bind app]).
  reflexivity.
Qed.

Lemma shape_cropped (a : image) :
  shape0 (cropped a) = shape0 a /\ shape1 (cropped a) = shape1 a.
Proof.
  unfold cropped, shape0, shape1. split; [apply length_map|].
  destruct a as [|row a]; simpl; [reflexivity | apply length_map].
Qed.

Lemma white_eight_bit (p : pixel) :
  eight_bit p ->
  (in_bounds (fst white_bounds) (snd white_bounds) p = true
   <-> (50 <= value p)%Z).
Proof.
  destruct p as [[p0 p1] p2]. unfold eight_bit, value. simpl.
  intros H. rewrite !andb_true_iff, !Z.leb_le. lia.
Qed.

(** X3.  Given five photographs or more, [_cut_imgs] returns the first five
    cropped, in order and at their size: a pixel within the bounds of white
    is kept, any other becomes black; for 8-bit pixels, a pixel is kept
    exactly when its value channel is at least 50. *)
Theorem cut_imgs_keeps_white (imgs : list image) :
  5 <= length imgs ->
  exists img_white,
    _cut_imgs imgs = Ok img_white
    /\ length img_white = 5
    /\ forall k img, k < 5 -> nth_error imgs k = Some img ->
         exists cut,
           nth_error img_white k = Some cut
           /\ shape0 cut = shape0 img /\ shape1 cut = shape1 img
           /\ forall r c p, at_px img r c = Some p ->
                exists q, at_px cut r c = Some q
                  /\ (within (fst white_bounds) (snd white_bounds) p -> q = p)
                  /\ (~ within (fst white_bounds) (snd white_bounds) p ->
                      q = (0, 0, 0)%Z)
                  /\ (eight_bit p -> (50 <= value p)%Z -> q = p)
                  /\ (eight_bit p -> (value p < 50)%Z -> q = (0, 0, 0)%Z).
Proof.
  intros Hlen. exists (map cropped (firstn 5 imgs)).
  split; [now apply cut_imgs_map|].
  split; [rewrite length_map, length_firstn; lia|].
  intros k img Hk Himg. exists (cropped img).
  split.
  { rewrite nth_error_map, nth_error_firstn.
    apply Nat.ltb_lt in Hk. now rewrite Hk, Himg. }
  destruct (shape_cropped img) as [-> ->].
  do 2 (split; [reflexivity|]).
  intros r c p Hp. unfold cropped. rewrite at_px_map, Hp. cbn [option_map].
  eexists. split; [reflexivity|].
  pose proof (in_bounds_within (fst white_bounds) (snd white_bounds) p) as Hw.
  pose proof (white_eight_bit p) as H8.
  destruct (in_bounds (fst white_bounds) (snd white_bounds) p).
  - split; [reflexivity|]. split; [|split; [reflexivity|]].
    + intros Hn. exfalso. apply Hn. now apply Hw.
    + intros Hb Hv. apply H8 in Hb.
      assert (50 <= value p)%Z by now apply Hb. lia.
  - split; [|split; [reflexivity|split]].
    + intros Hin. apply Hw in Hin. discriminate.
    + intros Hb Hv. apply H8 in Hb. apply Hb in Hv. discriminate.
    + reflexivity.
Qed.

Lemma cut_imgs_keeps_white_witness :
  exists img_white, _cut_imgs five_squares = Ok img_white /\ length img_white = 5.
Proof.
  destruct (cut_imgs_keeps_white five_squares) as (w & H1 & H2 & _).
  - simpl. lia.
  - exists w. split; assumption.
Defined.

Lemma cropped_idempotent (a : image) : cropped (cropped a) = cropped a.
Proof.
  unfold cropped. rewrite map_map. apply map_ext. intros row.
  rewrite map_map. apply map_ext. intros p.
  destruct (in_bounds (fst white_bounds) (snd white_bounds) p) eqn:E.
  - now rewrite E.
  - reflexivity.
Qed.

(** X4.  Cropping is idempotent: cropping the five images [_cut_imgs]
    returned gives them back. *)
Theorem cut_imgs_idempotent (imgs img_white : list image) :
  _cut_imgs imgs = Ok img_white -> _cut_imgs img_white = Ok img_white.
Proof.
  intros H.
  assert (Hlen : 5 <= length imgs).
  { destruct (Nat.le_gt_cases 5 (length imgs)) as [Hle|Hgt]; [exact Hle|].
    rewrite cut_imgs_short in H by exact Hgt. discriminate. }
  rewrite cut_imgs_map in H by exact Hlen.
  assert (E : img_white = map cropped (firstn 5 imgs)) by congruence.
  subst img_white. clear H.
  assert (Hlen' : length (map cropped (firstn 5 imgs)) = 5)
    by (rewrite length_map, length_firstn; lia).
  rewrite cut_imgs_map by exact (Nat.eq_le_incl _ _ (eq_sym Hlen')).
  rewrite <- Hlen' at 1. rewrite firstn_all, map_map.
  f_equal. apply map_ext. intros a. apply cropped_idempotent.
Qed.

Lemma cut_imgs_idempotent_witness :
  _cut_imgs (map cropped five_squares) = Ok (map cropped five_squares).
Proof.
  apply (cut_imgs_idempotent five_squares).
  apply (cut_imgs_map five_squares). simpl. lia.
Defined.

Lemma black_outside_profiles (color : string) (lower upper : pixel) :
  In (color, (lower, upper)) color_dict ->
  in_bounds lower upper (0, 0, 0)%Z = false.
Proof.
  unfold color_dict. simpl.
  intros H. repeat (destruct H as [H|H]; [injection H as <- <- <-; reflexivity|]).
  contradiction.
Qed.

(** X5.  On the cropped images every colour profile of [color_dict] sees only
    pixels of the white region: the mask of a cropped image is set at a pixel
    exactly when the pixel of the photograph lies within the bounds of the
    colour and within the bounds of white. *)
Theorem masks_of_cropped (imgs img_white : list image) (color : string)
    (lower upper : pixel) :
  In (color, (lower, upper)) color_dict ->
  _cut_imgs imgs = Ok img_white ->
  exists masks,
    _filter_color lower upper img_white = Ok masks
    /\ length masks = 5
    /\ forall k img, k < 5 -> nth_error imgs k = Some img ->
         exists m,
           nth_error masks k = Some m
           /\ forall r c p, at_px img r c = Some p ->
                exists v, at_px m r c = Some v
                  /\ (v = 255%Z <->
                      within lower upper p
                      /\ within (fst white_bounds) (snd white_bounds) p)
                  /\ (v = 0%Z <->
                      ~ (within lower upper p
                         /\ within (fst white_bounds) (snd white_bounds) p)).
Proof.
  intros Hcolor H.
  assert (Hlen : 5 <= length imgs).
  { destruct (Nat.le_gt_cases 5 (length imgs)) as [Hle|Hgt]; [exact Hle|].
    rewrite cut_imgs_short in H by exact Hgt. discriminate. }
  rewrite cut_imgs_map in H by exact Hlen.
  assert (E : img_white = map cropped (firstn 5 imgs)) by congruence.
  subst img_white. clear H.
  assert (Hlen' : length (map cropped (firstn 5 imgs)) = 5)
    by (rewrite length_map, length_firstn; lia).
  eexists. split; [apply filter_color_map; exact (Nat.eq_le_incl _ _ (eq_sym Hlen'))|].
  split; [repeat (rewrite ?length_map, ?length_firstn); lia|].
  intros k img Hk Himg.
  exists (inRange (cropped img) lower upper). split.
  { rewrite <- Hlen' at 1. rewrite firstn_all, !nth_error_map, nth_error_firstn.
    apply Nat.ltb_lt in Hk. now rewrite Hk, Himg. }
  intros r c p Hp. unfold inRange, cropped.
  rewrite !at_px_map, Hp. cbn [option_map]. eexists. split; [reflexivity|].
  pose proof (in_bounds_within (fst white_bounds) (snd white_bounds) p) as Hw.
  pose proof (in_bounds_within lower upper p) as Hc.
  pose proof (black_outside_profiles color lower upper Hcolor) as Hblack.
  destruct (in_bounds (fst white_bounds) (snd white_bounds) p).
  - destruct (in_bounds lower upper p); split; split;
      try discriminate; try tauto; intuition discriminate.
  - rewrite Hblack. split; split; try discriminate; try tauto;
      intuition discriminate.
Qed.

Lemma masks_of_cropped_witness :
  exists masks,
    _filter_color (15, 0, 0)%Z (30, 255, 255)%Z (map cropped five_squares)
    = Ok masks /\ length masks = 5.
Proof.
  destruct (masks_of_cropped five_squares (map cropped five_squares)
              "yellow"%string (15, 0, 0)%Z (30, 255, 255)%Z)
    as (masks & H1 & H2 & _).
  - simpl. auto.
  - apply (cut_imgs_map five_squares). simpl. lia.
  - exists masks. split; assumption.
Defined.

(** ** Colour detection *)


Lemma getitem_lt {A : Type} (l : list A) (k : nat) :
  k < length l -> exists a, getitem l k = Ok a /\ nth_error l k = Some a.
Proof.
  intros H. destruct (nth_error l k) as [a|] eqn:E.
  - exists a. split; [now apply getitem_nth | reflexivity].
  - apply nth_error_None in E. lia.
Qed.


Section Specks.

Variable findContours : mask -> list contour.


End Specks.


(** A loop whose turns either leave the state alone or raise [e], and one of
    which raises, raises [e]. *)
Lemma for_each_first_raise {K S : Type} (ks : list K) (body : K -> S -> result S)
    (s : S) (e : exn) :
  (forall k, In k ks -> body k s = Ok s \/ body k s = Raise e) ->
  (exists k, In k ks /\ body k s = Raise e) ->
  for_each ks body s = Raise e.
Proof.
  induction ks as [|k ks IH]; intros Hall (k0 & Hin & Hk0); [contradiction|].
  simpl. destruct (Hall k (or_introl eq_refl)) as [Hok|Hraise].
  - rewrite Hok. cbn [bind]. apply IH.
    + intros k' Hk'. apply Hall. now right.
    + destruct Hin as [<-|Hin]; [congruence|eauto].
  - now rewrite Hraise.
Qed.

Lemma true_div_zero (x y : Q) : (y == 0)%Q -> true_div x y = Raise ZeroDivisionError.
Proof.
  intros H. unfold true_div. apply Qeq_bool_iff in H. now rewrite H.
Qed.

Lemma centroid_degenerate (shape : nat * nat) (c0 : contour) (rest : list contour) :
  (m00 c0 == 0)%Q \/ fst shape = 0 \/ snd shape = 0 ->
  centroid_of_first shape (c0 :: rest) = Raise ZeroDivisionError.
Proof.
  intros H. unfold centroid_of_first. cbn [getitem nth_error bind].
  unfold true_div at 1.
  destruct (Qeq_bool (m00 c0) 0) eqn:E; [reflexivity|]. cbn [bind].
  unfold true_div at 1. rewrite E. cbn [bind].
  destruct H as [H|[H|H]].
  - apply Qeq_bool_iff in H. congruence.
  - rewrite H. unfold true_div at 1.
    destruct (Qeq_bool (inject_Z (Z.of_nat (snd shape))) 0); reflexivity.
  - rewrite H. reflexivity.
Qed.

(** X7.  A blob above the area threshold makes the detection divide by the
    area moment of the first contour and by the size of the mask: when that
    moment is zero or the mask has no rows or no columns, the loop over the
    contours raises [ZeroDivisionError], whatever the colour, white
    included. *)
Theorem detect_contours_zero_division (color : string) (shape : nat * nat)
    (c0 : contour) (rest : list contour) (index_mask : nat) (st : detect_state) :
  (m00 c0 == 0)%Q \/ fst shape = 0 \/ snd shape = 0 ->
  (exists c, In c (c0 :: rest) /\ (100 < contourArea c)%Q) ->
  detect_contours color shape (c0 :: rest) index_mask st
  = Raise ZeroDivisionError.
Proof.
  intros Hdeg (c & Hc & Hbig). unfold detect_contours.
  apply for_each_first_raise.
  - intros k Hk. apply in_seq in Hk.
    destruct (getitem_lt (c0 :: rest) k) as (ck & Hget & _); [lia|].
    unfold detect_step. rewrite Hget. cbn [bind].
    destruct (Qltb 100 (contourArea ck)); [|now left].
    right. now rewrite centroid_degenerate.
  - apply In_nth_error in Hc as [k Hk]. exists k. split.
    + apply in_seq. split; [lia|].
      assert (k < length (c0 :: rest)) by (apply nth_error_Some; congruence).
      lia.
    + unfold detect_step. rewrite (getitem_nth _ _ _ Hk). cbn [bind].
      rewrite (Qltb_true _ _ Hbig). now rewrite centroid_degenerate.
Qed.

Lemma detect_contours_zero_division_witness :
  detect_contours "white" (300, 300) [mkContour 0 0 0 0; blob_at 150 30] 0
    nothing_detected
  = Raise ZeroDivisionError.
Proof.
  apply detect_contours_zero_division.
  - left. reflexivity.
  - exists (blob_at 150 30). split; [simpl; auto | reflexivity].
Defined.






Section Detected.

Variable findContours : mask -> list contour.


End Detected.


(** ** Role partition of any number of faces *)

Lemma indices_where_sorted (p : dict -> bool) (l : list dict) (n : nat) :
  StronglySorted lt
    (map fst (filter (fun id : nat * dict => p (snd id))
                (combine (seq n (length l)) l)))
  /\ Forall (fun i => n <= i)
       (map fst (filter (fun id : nat * dict => p (snd id))
                   (combine (seq n (length l)) l))).
Proof.
  revert n. induction l as [|d l IH]; intros n; simpl.
  - split; constructor.
  - destruct (IH (S n)) as [Hs Hge].
    assert (Hge' : Forall (fun i => n <= i)
                     (map fst (filter (fun id : nat * dict => p (snd id))
                                 (combine (seq (S n) (length l)) l)))).
    { eapply Forall_impl; [|exact Hge]. simpl. intros; lia. }
    destruct (p d); simpl.
    + split; constructor; auto.
    + split; assumption.
Qed.

Lemma sorted_last_max (l : list nat) (d j : nat) :
  StronglySorted lt l -> In j l -> j <= last l d /\ In (last l d) l.
Proof.
  intros Hs. revert j. induction Hs as [|a l Hs IH Ha]; intros j Hj;
    [contradiction|].
  rewrite last_cons. destruct l as [|b l].
  - destruct Hj as [<-|[]]. simpl. auto.
  - destruct (IH b (or_introl eq_refl)) as [_ Hlast].
    assert (Hmax : forall i, In i (b :: l) -> i <= last (b :: l) a).
    { intros i Hi. rewrite (last_cons b l a).
      destruct (IH i Hi) as [Hle _]. now rewrite (last_cons b l d) in Hle. }
    rewrite (last_cons b l a). rewrite (last_cons b l d) in Hlast.
    split; [|now right].
    destruct Hj as [<-|Hj].
    + rewrite Forall_forall in Ha. specialize (Ha _ Hlast). lia.
    + specialize (Hmax j Hj). now rewrite (last_cons b l a) in Hmax.
Qed.

(** X9.  For any number of faces, [_type_division] returns as side faces the
    indices of the dictionaries that do not have exactly four entries, in
    increasing order, and as top face the last index whose dictionary has
    four entries; when no dictionary has four entries the top index is 0. *)
Theorem type_division_partition (dict_color_map : list dict) :
  exists bottom_index top_index,
    _type_division dict_color_map = (bottom_index, top_index)
    /\ (forall i, In i bottom_index
                  <-> exists d, nth_error dict_color_map i = Some d
                                /\ length d <> 4)
    /\ StronglySorted lt bottom_index
    /\ ((exists i d, nth_error dict_color_map i = Some d /\ length d = 4) ->
        (exists d, nth_error dict_color_map top_index = Some d /\ length d = 4)
        /\ forall j d, nth_error dict_color_map j = Some d -> length d = 4 ->
                       j <= top_index)
    /\ ((forall d, In d dict_color_map -> length d <> 4) -> top_index = 0).
Proof.
  exists (sides dict_color_map), (last (tops dict_color_map) 0).
  split; [apply type_division_spec|]. split; [|split; [|split]].
  - intros i. unfold sides. rewrite In_indices_where.
    split; intros (d & Hd & H); exists d; (split; [exact Hd|]);
      unfold has_four in *.
    + apply negb_true_iff, Nat.eqb_neq in H. exact H.
    + apply negb_true_iff, Nat.eqb_neq. exact H.
  - apply (indices_where_sorted (fun d => negb (has_four d)) dict_color_map 0).
  - intros (i & d & Hd & H4).
    assert (Hin : In i (tops dict_color_map)).
    { apply In_indices_where. exists d. split; [exact Hd|].
      now apply Nat.eqb_eq. }
    pose proof (proj1 (indices_where_sorted has_four dict_color_map 0)) as Hs.
    fold (indices_where has_four dict_color_map) in Hs.
    fold (tops dict_color_map) in Hs.
    split.
    + destruct (sorted_last_max _ 0 i Hs Hin) as [_ Hlast].
      apply In_indices_where in Hlast as (d' & Hd' & H').
      exists d'. split; [exact Hd'|]. now apply Nat.eqb_eq.
    + intros j d' Hd' H'.
      apply (sorted_last_max _ 0 j Hs).
      apply In_indices_where. exists d'. split; [exact Hd'|].
      now apply Nat.eqb_eq.
  - intros Hnone.
    destruct (tops dict_color_map) as [|t ts] eqn:E; [reflexivity|].
    assert (Hin : In t (tops dict_color_map)) by (rewrite E; now left).
    apply In_indices_where in Hin as (d & Hd & H4).
    apply Nat.eqb_eq in H4. exfalso.
    apply (Hnone d); [eapply nth_error_In, Hd | exact H4].
Qed.

(** ** The size of the strip and of the net *)

Lemma concatenate1_shape1 {A : Type} (a b c : ndarray A) :
  concatenate1 a b = Ok c -> 0 < shape0 a -> shape1 c = shape1 a + shape1 b.
Proof.
  unfold concatenate1. destruct (shape0 a =? shape0 b) eqn:E; [|discriminate].
  apply Nat.eqb_eq in E. intros H Hpos. injection H as <-.
  destruct a as [|ra a]; [simpl in Hpos; lia|].
  destruct b as [|rb b]; [simpl in E; discriminate|].
  simpl. apply length_app.
Qed.

Lemma concat_faces_shape (img_white : list image) (order : list nat) :
  forall acc strip,
    concat_faces img_white acc order = Ok strip ->
    exists faces,
      Forall2 (fun b f => nth_error img_white b = Some f) order faces
      /\ Forall (fun f : image => shape0 f = shape0 acc) faces
      /\ shape0 strip = shape0 acc
      /\ (0 < shape0 acc ->
          shape1 strip = shape1 acc + list_sum (map shape1 faces)).
Proof.
  induction order as [|b order IH]; intros acc strip H; simpl in H.
  - injection H as <-. exists []. repeat split; try constructor. simpl. lia.
  - apply bind_Ok in H as (face & Hface & H).
    apply bind_Ok in H as (acc' & Hcat & H).
    apply getitem_Ok in Hface.
    destruct (concatenate1_shape0 _ _ _ Hcat) as [Hab Hc].
    destruct (IH acc' strip H) as (faces & Hfaces & Hrows & Hs0 & Hs1).
    exists (face :: faces).
    split; [constructor; assumption|].
    split.
    { constructor; [congruence|].
      eapply Forall_impl; [|exact Hrows]. simpl. intros f Hf. congruence. }
    split; [congruence|].
    intros Hpos. rewrite Hs1 by lia.
    rewrite (concatenate1_shape1 _ _ _ Hcat Hpos). simpl. lia.
Qed.

(** X10.  Whenever the strip is built, it holds the seed followed by the
    faces [chain_order] lists; every one of these faces has as many rows as
    the seed, the strip has that many rows too, and it is as wide as all the
    faces it holds together. *)
Theorem strip_size (img_white : list image) (dict_color_map : list dict)
    (bottom_index : list nat) (top_index : nat) (st : strip_state) :
  combine_strip img_white dict_color_map bottom_index top_index = Ok st ->
  exists b0 seed order faces,
    nth_error bottom_index 0 = Some b0
    /\ nth_error img_white b0 = Some seed
    /\ chain_order dict_color_map bottom_index
       = Ok (connect_color st, b0 :: order)
    /\ Forall2 (fun b f => nth_error img_white b = Some f) order faces
    /\ Forall (fun f : image => shape0 f = shape0 seed) faces
    /\ shape0 (left_img st) = shape0 seed
    /\ (0 < shape0 seed ->
        shape1 (left_img st) = shape1 seed + list_sum (map shape1 faces)).
Proof.
  intros H.
  destruct (strip_of_order _ _ _ _ _ H)
    as (b0 & seed & order & Hb0 & Hseed & Hord & Hcat).
  destruct (concat_faces_shape _ _ _ _ Hcat)
    as (faces & Hfaces & Hrows & Hs0 & Hs1).
  exists b0, seed, order, faces. repeat split; assumption.
Qed.

Lemma strip_size_witness :
  exists b0 seed order faces,
    nth_error [0; 1; 2; 3] 0 = Some b0
    /\ nth_error five_bars b0 = Some seed
    /\ chain_order chained_maps [0; 1; 2; 3]
       = Ok (["orange"%string], b0 :: order)
    /\ Forall2 (fun b f => nth_error five_bars b = Some f) order faces
    /\ Forall (fun f : image => shape0 f = shape0 seed) faces.
Proof.
  destruct (combine_strip five_bars chained_maps [0; 1; 2; 3] 4)
    as [st|e] eqn:E; [|discriminate].
  assert (Hc : connect_color st = ["orange"%string])
    by (vm_compute in E; injection E as <-; reflexivity).
  destruct (strip_size five_bars chained_maps [0; 1; 2; 3] 4 st E)
    as (b0 & seed & order & faces & H1 & H2 & H3 & H4 & H5 & _).
  rewrite Hc in H3.
  exists b0, seed, order, faces. repeat split; assumption.
Defined.

(** ** Slice assignment *)

Lemma slice_index_le (i : Z) (n : nat) : slice_index i n <= n.
Proof. unfold slice_index. destruct (i <? 0)%Z eqn:E; lia. Qed.

Lemma slice_index_nonneg (i : Z) (n : nat) :
  (0 <= i)%Z -> slice_index i n = Nat.min (Z.to_nat i) n.
Proof.
  intros H. unfold slice_index.
  destruct (i <? 0)%Z eqn:E; [apply Z.ltb_lt in E; lia|]. lia.
Qed.

Lemma slice_range_bound (a b : Z) (n : nat) :
  fst (slice_range a b n) + snd (slice_range a b n) <= n.
Proof.
  unfold slice_range. simpl.
  pose proof (slice_index_le a n). pose proof (slice_index_le b n). lia.
Qed.

Lemma length_stretch {A : Type} (l : list A) (n : nat) :
  length l = n \/ length l = 1 -> length (stretch l n) = n.
Proof.
  unfold stretch. destruct (length l =? n) eqn:E.
  - apply Nat.eqb_eq in E. auto.
  - intros [H|H]; [apply Nat.eqb_neq in E; contradiction|].
    destruct l as [|x [|y l]]; try discriminate. apply repeat_length.
Qed.

Lemma stretch_same {A : Type} (l : list A) (n : nat) :
  length l = n -> stretch l n = l.
Proof. intros H. unfold stretch. apply Nat.eqb_eq in H. now rewrite H. Qed.

Lemma hd_stretch {A : Type} (l : list A) (n : nat) :
  0 < n -> length l = n \/ length l = 1 ->
  nth_error (stretch l n) 0 = nth_error l 0.
Proof.
  intros Hn. unfold stretch. destruct (length l =? n) eqn:E; [reflexivity|].
  intros [H|H]; [apply Nat.eqb_neq in E; contradiction|].
  destruct l as [|x [|y l]]; try discriminate.
  destruct n; [lia | reflexivity].
Qed.

Lemma broadcast_to_Ok {A : Type} (v vb : ndarray A) (lr lc : nat) :
  broadcast_to v lr lc = Ok vb ->
  (shape0 v = lr \/ shape0 v = 1)
  /\ (shape1 v = lc \/ shape1 v = 1)
  /\ vb = map (fun row => stretch row lc) (stretch v lr)
  /\ length vb = lr.
Proof.
  unfold broadcast_to.
  destruct ((shape0 v =? lr) || (shape0 v =? 1)) eqn:E0; [|discriminate].
  destruct ((shape1 v =? lc) || (shape1 v =? 1)) eqn:E1; [|discriminate].
  cbn [andb]. intros H.
  apply orb_true_iff in E0, E1. rewrite !Nat.eqb_eq in E0, E1.
  assert (Hvb : vb = map (fun row => stretch row lc) (stretch v lr))
    by congruence.
  repeat split; try assumption.
  rewrite Hvb, length_map. now apply length_stretch.
Qed.

Lemma broadcast_to_mismatch {A : Type} (v : ndarray A) (lr lc : nat) :
  (shape0 v <> lr /\ shape0 v <> 1) \/ (shape1 v <> lc /\ shape1 v <> 1) ->
  broadcast_to v lr lc = Raise ValueError.
Proof.
  unfold broadcast_to. intros [[H1 H2]|[H1 H2]];
    apply Nat.eqb_neq in H1, H2; rewrite H1, H2; cbn [orb andb];
    [reflexivity | now rewrite andb_false_r].
Qed.

Lemma length_splice {A : Type} (l new : list A) (start : nat) :
  start + length new <= length l -> length (splice l start new) = length l.
Proof.
  intros H. unfold splice.
  rewrite !length_app, length_firstn, length_skipn. lia.
Qed.

Lemma nth_error_splice {A : Type} (l new : list A) (start j : nat) :
  start + length new <= length l ->
  nth_error (splice l start new) j
  = if (start <=? j) && (j <? start + length new)
    then nth_error new (j - start)
    else nth_error l j.
Proof.
  intros H. unfold splice.
  assert (Hf : length (firstn start l) = start)
    by (rewrite length_firstn; lia).
  destruct (start <=? j) eqn:E1; cbn [andb].
  - apply Nat.leb_le in E1.
    rewrite nth_error_app2 by lia. rewrite Hf.
    destruct (j <? start + length new) eqn:E2.
    + apply Nat.ltb_lt in E2. rewrite nth_error_app1 by lia. reflexivity.
    + apply Nat.ltb_ge in E2. rewrite nth_error_app2 by lia.
      rewrite nth_error_skipn. f_equal. lia.
  - apply Nat.leb_gt in E1. rewrite nth_error_app1 by lia.
    rewrite nth_error_firstn. apply Nat.ltb_lt in E1. now rewrite E1.
Qed.

(** The rows of [arr[a:b, c:d] = v]. *)
Lemma setitem_slice_rows {A : Type} (arr v r : ndarray A) (a b c d : Z) :
  setitem_slice arr a b c d v = Ok r ->
  let r0 := fst (slice_range a b (shape0 arr)) in
  let lr := snd (slice_range a b (shape0 arr)) in
  let c0 := fst (slice_range c d (shape1 arr)) in
  let lc := snd (slice_range c d (shape1 arr)) in
  exists vb,
    broadcast_to v lr lc = Ok vb
    /\ length r = length arr
    /\ forall i,
         nth_error r i
         = if (r0 <=? i) && (i <? r0 + lr)
           then match nth_error arr i, nth_error vb (i - r0) with
                | Some row, Some vrow => Some (splice row c0 vrow)
                | _, _ => None
                end
           else nth_error arr i.
Proof.
  unfold setitem_slice.
  pose proof (slice_range_bound a b (shape0 arr)) as Hb.
  destruct (slice_range a b (shape0 arr)) as [r0 lr].
  destruct (slice_range c d (shape1 arr)) as [c0 lc].
  cbn [fst snd] in *. intros H.
  apply bind_Ok in H as (vb & Hvb & H). injection H as <-.
  exists vb. split; [exact Hvb|].
  apply broadcast_to_Ok in Hvb as (_ & _ & _ & Hlen).
  unfold shape0 in Hb.
  assert (Hf : length (firstn r0 arr) = r0) by (rewrite length_firstn; lia).
  assert (Hm : length (firstn lr (skipn r0 arr)) = lr)
    by (rewrite length_firstn, length_skipn; lia).
  assert (Hmid : length (map (fun rv : list A * list A =>
                                splice (fst rv) c0 (snd rv))
                           (combine (firstn lr (skipn r0 arr)) vb)) = lr)
    by (rewrite length_map, length_combine; lia).
  split.
  - rewrite !length_app, Hf, Hmid, length_skipn. lia.
  - intros i. destruct (r0 <=? i) eqn:E1; cbn [andb].
    + apply Nat.leb_le in E1. rewrite nth_error_app2 by lia. rewrite Hf.
      destruct (i <? r0 + lr) eqn:E2.
      * apply Nat.ltb_lt in E2. rewrite nth_error_app1 by lia.
        rewrite nth_error_map.
        assert (Hrow : nth_error (firstn lr (skipn r0 arr)) (i - r0)
                       = nth_error arr i).
        { rewrite nth_error_firstn.
          assert (Hlt : (i - r0 <? lr) = true) by (apply Nat.ltb_lt; lia).
          rewrite Hlt, nth_error_skipn. f_equal. lia. }
        destruct (nth_error arr i) as [row|] eqn:Ea;
          [|apply nth_error_None in Ea; lia].
        destruct (nth_error vb (i - r0)) as [vrow|] eqn:Ev;
          [|apply nth_error_None in Ev; lia].
        assert (Hc : nth_error (combine (firstn lr (skipn r0 arr)) vb) (i - r0)
                     = Some (row, vrow)).
        { clear - Hrow Ev. revert Hrow Ev.
          generalize (firstn lr (skipn r0 arr)) as l, (i - r0) as j.
          intros l j. revert l vb.
          induction j as [|j IH]; intros [|x l] [|y vb] Hx Hy;
            simpl in *; try discriminate; [congruence|].
          now apply IH. }
        now rewrite Hc.
      * apply Nat.ltb_ge in E2. rewrite nth_error_app2 by lia.
        rewrite Hmid, nth_error_skipn. f_equal. lia.
    + apply Nat.leb_gt in E1. rewrite nth_error_app1 by lia.
      rewrite nth_error_firstn. apply Nat.ltb_lt in E1. now rewrite E1.
Qed.

(** ** The net *)

Lemma shape1_nth {A : Type} (a : ndarray A) :
  shape1 a = match nth_error a 0 with
             | Some row => length row
             | None => 0
             end.
Proof. now destruct a. Qed.

Lemma setitem_slice_shape {A : Type} (arr v r : ndarray A) (a b c d : Z) :
  setitem_slice arr a b c d v = Ok r ->
  shape0 r = shape0 arr /\ shape1 r = shape1 arr.
Proof.
  intros H.
  destruct (setitem_slice_rows _ _ _ _ _ _ _ H) as (vb & Hvb & Hlen & Hrows).
  split; [exact Hlen|].
  rewrite (shape1_nth r), (Hrows 0).
  pose proof (slice_range_bound c d (shape1 arr)) as Hc.
  destruct (slice_range a b (shape0 arr)) as [r0 lr].
  destruct (slice_range c d (shape1 arr)) as [c0 lc].
  cbn [fst snd] in *.
  destruct ((r0 <=? 0) && (0 <? r0 + lr)) eqn:E; [|symmetry; apply shape1_nth].
  apply andb_true_iff in E as [E1 E2].
  apply Nat.leb_le in E1. apply Nat.ltb_lt in E2.
  assert (r0 = 0) by lia. subst r0. cbn [Nat.sub].
  apply broadcast_to_Ok in Hvb as (Hv0 & Hv1 & -> & _).
  rewrite nth_error_map, hd_stretch by (assumption || lia).
  rewrite (shape1_nth arr), (shape1_nth v) in *.
  destruct (nth_error arr 0) as [row|]; [|reflexivity].
  destruct v as [|vrow v].
  - destruct Hv0 as [Hv0|Hv0]; unfold shape0 in Hv0; simpl in Hv0;
      [lia | discriminate].
  - cbn [nth_error option_map] in *.
    apply length_splice. rewrite length_stretch by exact Hv1. exact Hc.
Qed.

Lemma shape_full {A : Type} (h w : nat) (x : A) :
  shape0 (full h w x) = h /\ (0 < h -> shape1 (full h w x) = w).
Proof.
  unfold full, shape0, shape1. split; [apply repeat_length|].
  intros H. destruct h; [lia|]. simpl. apply repeat_length.
Qed.

Lemma stacked_shape (strip : image) :
  @shape0 pixel (full (shape0 strip) (shape1 strip) (0, 0, 0)%Z ++ strip)
  = 2 * shape0 strip
  /\ @shape1 pixel (full (shape0 strip) (shape1 strip) (0, 0, 0)%Z ++ strip)
     = shape1 strip.
Proof.
  destruct (shape_full (shape0 strip) (shape1 strip) (0, 0, 0)%Z) as [H0 H1].
  split.
  - unfold shape0 in *. rewrite length_app, H0.
    cbn [Nat.mul]. now rewrite Nat.add_0_r.
  - destruct strip as [|row strip]; [reflexivity|].
    specialize (H1 ltac:(simpl; lia)).
    remember (full (shape0 (row :: strip)) (shape1 (row :: strip)) (0, 0, 0)%Z)
      as canvas eqn:Ec.
    destruct canvas as [|crow canvas]; [simpl in H0; discriminate|].
    exact H1.
Qed.

Lemma concatenate0_canvas (strip : image) :
  concatenate0 (full (shape0 strip) (shape1 strip) (0, 0, 0)%Z) strip
  = Ok (full (shape0 strip) (shape1 strip) (0, 0, 0)%Z ++ strip).
Proof.
  unfold concatenate0.
  destruct strip as [|row strip]; [reflexivity|].
  destruct (shape_full (shape0 (row :: strip)) (shape1 (row :: strip))
              (0, 0, 0)%Z) as [_ H1].
  rewrite H1 by (simpl; lia). now rewrite Nat.eqb_refl.
Qed.

(** Lines 98-106 stack a canvas of the strip's size on the strip and assign
    inside it: twice the rows of the strip, the same columns. *)
Lemma combine_paste_shape (img_white : list image) (top_index : nat)
    (st : strip_state) (net : image) :
  combine_paste img_white top_index st = Ok net ->
  shape0 net = 2 * shape0 (left_img st)
  /\ shape1 net = shape1 (left_img st).
Proof.
  unfold combine_paste. intros H.
  apply bind_Ok in H as (top_img & _ & H).
  rewrite concatenate0_canvas in H. cbn [bind] in H.
  apply setitem_slice_shape in H as [H0 H1].
  destruct (stacked_shape (left_img st)) as [S0 S1].
  split; [exact (eq_trans H0 S0) | exact (eq_trans H1 S1)].
Qed.

(** X11.  Whenever the assembly returns, the net has twice as many rows as
    the strip, hence as the seed face, and as many columns as the strip. *)
Theorem net_size (img_white : list image) (dict_color_map : list dict)
    (bottom_index : list nat) (top_index : nat) (net : image) :
  _combine_imgs img_white dict_color_map bottom_index top_index = Ok net ->
  exists st b0 seed,
    combine_strip img_white dict_color_map bottom_index top_index = Ok st
    /\ nth_error bottom_index 0 = Some b0
    /\ nth_error img_white b0 = Some seed
    /\ shape0 net = 2 * shape0 seed
    /\ shape0 net = 2 * shape0 (left_img st)
    /\ shape1 net = shape1 (left_img st).
Proof.
  unfold _combine_imgs. intros H.
  apply bind_Ok in H as (st & Hst & H).
  destruct (strip_of_order _ _ _ _ _ Hst)
    as (b0 & seed & order & Hb0 & Hseed & _ & Hcat).
  destruct (concat_faces_shape _ _ _ _ Hcat) as (_ & _ & _ & Hrows & _).
  exists st, b0, seed. do 3 (split; [assumption|]).
  destruct (combine_paste_shape _ _ _ _ H) as [H0 H1].
  split; [exact (eq_trans H0 (f_equal (Nat.mul 2) Hrows))|].
  split; [exact H0 | exact H1].
Qed.

Lemma net_size_witness :
  exists net st,
    _combine_imgs five_bars chained_maps [0; 1; 2; 3] 4 = Ok net
    /\ shape0 net = 2 * shape0 (left_img st)
    /\ shape1 net = shape1 (left_img st).
Proof.
  destruct (_combine_imgs five_bars chained_maps [0; 1; 2; 3] 4)
    as [net|e] eqn:E; [|vm_compute in E; discriminate].
  destruct (net_size _ _ _ _ _ E) as (st & b0 & seed & _ & _ & _ & _ & H0 & H1).
  exists net, st. repeat split; assumption.
Defined.

Lemma nth_error_stacked (strip : image) (i : nat) :
  @nth_error (list pixel)
    (full (shape0 strip) (shape1 strip) (0, 0, 0)%Z ++ strip) i
  = if i <? shape0 strip
    then Some (repeat black (shape1 strip))
    else nth_error strip (i - shape0 strip).
Proof.
  destruct (shape_full (shape0 strip) (shape1 strip) (0, 0, 0)%Z) as [H0 _].
  unfold shape0 in H0.
  destruct (i <? shape0 strip) eqn:E.
  - apply Nat.ltb_lt in E. rewrite nth_error_app1.
    + unfold full. now apply nth_error_repeat.
    + eapply Nat.lt_le_trans; [exact E|].
      apply Nat.eq_le_incl. symmetry. exact H0.
  - apply Nat.ltb_ge in E. rewrite nth_error_app2.
    + exact (f_equal (fun n => nth_error strip (i - n)) H0).
    + eapply Nat.le_trans; [|exact E]. apply Nat.eq_le_incl. exact H0.
Qed.

(** The rows and columns line 106 assigns to, the offset being 0. *)
Lemma paste_ranges (h w th tw : nat) :
  slice_range 0 (Z.of_nat th + 0) (2 * h) = (0, Nat.min th (2 * h))
  /\ slice_range (Z.of_nat image_height) (Z.of_nat tw + Z.of_nat image_height) w
     = (Nat.min image_height w,
        Nat.min (tw + image_height) w - Nat.min image_height w).
Proof.
  unfold slice_range. rewrite !slice_index_nonneg by lia.
  rewrite Z.add_0_r, <- Nat2Z.inj_add, !Nat2Z.id. simpl Z.to_nat.
  split; f_equal; lia.
Qed.

(** X12.  When the top face is not higher than the strip, the lower half of
    the net is the strip, row for row. *)
Theorem net_lower_half_is_strip (img_white : list image)
    (dict_color_map : list dict) (bottom_index : list nat) (top_index : nat)
    (net top_img : image) (st : strip_state) :
  _combine_imgs img_white dict_color_map bottom_index top_index = Ok net ->
  combine_strip img_white dict_color_map bottom_index top_index = Ok st ->
  nth_error img_white top_index = Some top_img ->
  shape0 top_img <= shape0 (left_img st) ->
  forall i, nth_error net (shape0 (left_img st) + i) = nth_error (left_img st) i.
Proof.
  unfold _combine_imgs. intros H Hst Htop Hfit i.
  rewrite Hst in H. cbn [bind] in H.
  pose proof (recorded_offset_zero _ _ _ _ _ Hst) as Hzero.
  unfold combine_paste in H.
  rewrite (getitem_nth _ _ _ Htop) in H. cbn [bind] in H.
  rewrite concatenate0_canvas in H. cbn [bind] in H. rewrite Hzero in H.
  destruct (setitem_slice_rows _ _ _ _ _ _ _ H) as (vb & _ & _ & Hrows).
  destruct (stacked_shape (left_img st)) as [S0 S1].
  rewrite S0, S1 in Hrows.
  destruct (paste_ranges (shape0 (left_img st)) (shape1 (left_img st))
              (shape0 top_img) (shape1 top_img)) as [Er Ec].
  rewrite Er, Ec in Hrows. cbn [fst snd] in Hrows.
  rewrite Hrows.
  assert (E : (shape0 (left_img st) + i
               <? 0 + Nat.min (shape0 top_img) (2 * shape0 (left_img st)))
              = false) by (apply Nat.ltb_ge; lia).
  rewrite E, andb_false_r, nth_error_stacked.
  assert (E' : (shape0 (left_img st) + i <? shape0 (left_img st)) = false)
    by (apply Nat.ltb_ge; lia).
  rewrite E'. f_equal. lia.
Qed.

Lemma net_lower_half_is_strip_witness :
  exists net st,
    _combine_imgs five_bars chained_maps [0; 1; 2; 3] 4 = Ok net
    /\ nth_error net (shape0 (left_img st) + 0) = nth_error (left_img st) 0.
Proof.
  destruct (_combine_imgs five_bars chained_maps [0; 1; 2; 3] 4)
    as [net|e] eqn:E; [|vm_compute in E; discriminate].
  destruct (combine_strip five_bars chained_maps [0; 1; 2; 3] 4)
    as [st|e] eqn:Es; [|vm_compute in Es; discriminate].
  exists net, st. split; [reflexivity|].
  apply (net_lower_half_is_strip five_bars chained_maps [0; 1; 2; 3] 4 net
           (full 1 100 (170, 200, 200)%Z) st E Es eq_refl).
  assert (Hs : shape0 (left_img st) = 1)
    by (vm_compute in Es; injection Es as <-; reflexivity).
  rewrite Hs. simpl. lia.
Defined.

Lemma broadcast_to_same {A : Type} (v : ndarray A) :
  rectangular v -> broadcast_to v (shape0 v) (shape1 v) = Ok v.
Proof.
  intros Hrect. unfold broadcast_to. rewrite !Nat.eqb_refl. cbn [orb andb].
  f_equal. rewrite stretch_same by reflexivity.
  rewrite <- (map_id v) at 2. apply map_ext_Forall.
  eapply Forall_impl; [|exact Hrect].
  intros row Hrow. now apply stretch_same.
Qed.

Lemma setitem_slice_broadcast {A : Type} (arr v : ndarray A) (a b c d : Z) :
  setitem_slice arr a b c d v
  = (vb <- broadcast_to v (snd (slice_range a b (shape0 arr)))
             (snd (slice_range c d (shape1 arr))) ;;
     setitem_slice arr a b c d v).
Proof.
  unfold setitem_slice.
  destruct (slice_range a b (shape0 arr)) as [r0 lr].
  destruct (slice_range c d (shape1 arr)) as [c0 lc]. cbn [snd].
  now destruct (broadcast_to v lr lc).
Qed.

Lemma setitem_slice_total {A : Type} (arr v vb : ndarray A) (a b c d : Z) :
  broadcast_to v (snd (slice_range a b (shape0 arr)))
    (snd (slice_range c d (shape1 arr))) = Ok vb ->
  exists r, setitem_slice arr a b c d v = Ok r.
Proof.
  unfold setitem_slice.
  destruct (slice_range a b (shape0 arr)) as [r0 lr].
  destruct (slice_range c d (shape1 arr)) as [c0 lc]. cbn [snd].
  intros ->. cbn [bind]. eauto.
Qed.

(** X13.  When the strip is built and the top face, a rectangular image not
    higher than the strip, fits between column [image_height] and the right
    edge of the strip, the assembly returns, and the upper half of the net is
    black except for the top face, which lies in rows 0 onwards at columns
    [image_height] onwards. *)
Theorem top_face_pasted (img_white : list image) (dict_color_map : list dict)
    (bottom_index : list nat) (top_index : nat) (st : strip_state)
    (top_img : image) :
  combine_strip img_white dict_color_map bottom_index top_index = Ok st ->
  nth_error img_white top_index = Some top_img ->
  rectangular top_img ->
  shape0 top_img <= shape0 (left_img st) ->
  image_height + shape1 top_img <= shape1 (left_img st) ->
  exists net,
    _combine_imgs img_white dict_color_map bottom_index top_index = Ok net
    /\ forall i j,
         i < shape0 (left_img st) -> j < shape1 (left_img st) ->
         at_px net i j
         = if (i <? shape0 top_img) && (image_height <=? j)
              && (j <? image_height + shape1 top_img)
           then at_px top_img i (j - image_height)
           else Some black.
Proof.
  intros Hst Htop Hrect Hrows Hcols.
  unfold _combine_imgs. rewrite Hst. cbn [bind].
  pose proof (recorded_offset_zero _ _ _ _ _ Hst) as Hzero.
  unfold combine_paste.
  rewrite (getitem_nth _ _ _ Htop). cbn [bind].
  rewrite concatenate0_canvas. cbn [bind]. rewrite Hzero.
  destruct (stacked_shape (left_img st)) as [S0 S1].
  destruct (paste_ranges (shape0 (left_img st)) (shape1 (left_img st))
              (shape0 top_img) (shape1 top_img)) as [Er Ec].
  replace (Nat.min (shape0 top_img) (2 * shape0 (left_img st)))
    with (shape0 top_img) in Er by lia.
  replace (Nat.min (shape1 top_img + image_height) (shape1 (left_img st))
           - Nat.min image_height (shape1 (left_img st)))
    with (shape1 top_img) in Ec by lia.
  replace (Nat.min image_height (shape1 (left_img st)))
    with image_height in Ec by lia.
  match goal with
  | |- exists net, setitem_slice ?arr ?a ?b ?c ?d ?v = Ok net /\ _ =>
      destruct (@setitem_slice_total pixel arr v v a b c d) as [net Hnet]
  end.
  { rewrite S0, S1, Er, Ec. cbn [snd]. now apply broadcast_to_same. }
  exists net. split; [exact Hnet|].
  destruct (setitem_slice_rows _ _ _ _ _ _ _ Hnet) as (vb & Hvb & _ & Hnth).
  rewrite S0, S1, Er, Ec in Hvb, Hnth. cbn [fst snd] in Hvb, Hnth.
  rewrite broadcast_to_same in Hvb by exact Hrect.
  assert (Evb : vb = top_img) by congruence. subst vb. clear Hvb.
  intros i j Hi Hj. unfold at_px. rewrite Hnth, nth_error_stacked.
  apply Nat.ltb_lt in Hi. rewrite Hi. apply Nat.ltb_lt in Hi.
  cbn [Nat.leb Nat.add andb]. rewrite Nat.sub_0_r.
  destruct (i <? shape0 top_img) eqn:Ei; cbn [andb].
  - apply Nat.ltb_lt in Ei.
    destruct (nth_error top_img i) as [trow|] eqn:Et;
      [|apply nth_error_None in Et; unfold shape0 in Ei; lia].
    assert (Hlen : length trow = shape1 top_img).
    { unfold rectangular in Hrect. rewrite Forall_forall in Hrect.
      apply Hrect. eapply nth_error_In, Et. }
    rewrite nth_error_splice by (rewrite repeat_length, Hlen; lia).
    rewrite Hlen.
    destruct ((image_height <=? j) && (j <? image_height + shape1 top_img));
      [reflexivity|].
    now apply nth_error_repeat.
  - now apply nth_error_repeat.
Qed.

Lemma top_face_pasted_witness :
  exists net,
    _combine_imgs five_bars chained_maps [0; 1; 2; 3] 4 = Ok net
    /\ at_px net 0 350 = Some (170, 200, 200)%Z
    /\ at_px net 0 299 = Some black.
Proof.
  destruct (combine_strip five_bars chained_maps [0; 1; 2; 3] 4)
    as [st|e] eqn:Es; [|vm_compute in Es; discriminate].
  assert (Hs : shape0 (left_img st) = 1 /\ shape1 (left_img st) = 400)
    by (vm_compute in Es; injection Es as <-; split; reflexivity).
  destruct Hs as [Hs0 Hs1].
  destruct (top_face_pasted five_bars chained_maps [0; 1; 2; 3] 4 st
              (full 1 100 (170, 200, 200)%Z) Es eq_refl)
    as (net & Hnet & Hpx).
  - repeat constructor.
  - rewrite Hs0. simpl. lia.
  - rewrite Hs1. apply Nat.leb_le. reflexivity.
  - exists net. split; [exact Hnet|]. split.
    + rewrite Hpx by (rewrite ?Hs0, ?Hs1; apply Nat.ltb_lt; reflexivity).
      reflexivity.
    + rewrite Hpx by (rewrite ?Hs0, ?Hs1; apply Nat.ltb_lt; reflexivity).
      reflexivity.
Defined.

(** X14.  When the strip is built but is too narrow to take the top face
    from column [image_height] onwards, or not half as high as the top face,
    the slice assignment of line 106 cannot broadcast the top face and the
    assembly raises [ValueError] (a top face a single pixel wide or high
    excepted, which numpy stretches). *)
Theorem net_too_small_raises (img_white : list image)
    (dict_color_map : list dict) (bottom_index : list nat) (top_index : nat)
    (st : strip_state) (top_img : image) :
  combine_strip img_white dict_color_map bottom_index top_index = Ok st ->
  nth_error img_white top_index = Some top_img ->
  (shape1 (left_img st) < image_height + shape1 top_img
   /\ 2 <= shape1 top_img)
  \/ (2 * shape0 (left_img st) < shape0 top_img /\ 2 <= shape0 top_img) ->
  _combine_imgs img_white dict_color_map bottom_index top_index
  = Raise ValueError.
Proof.
  intros Hst Htop Hsmall.
  unfold _combine_imgs. rewrite Hst. cbn [bind].
  pose proof (recorded_offset_zero _ _ _ _ _ Hst) as Hzero.
  unfold combine_paste.
  rewrite (getitem_nth _ _ _ Htop). cbn [bind].
  rewrite concatenate0_canvas. cbn [bind]. rewrite Hzero.
  rewrite (@setitem_slice_broadcast pixel).
  destruct (stacked_shape (left_img st)) as [S0 S1].
  destruct (paste_ranges (shape0 (left_img st)) (shape1 (left_img st))
              (shape0 top_img) (shape1 top_img)) as [Er Ec].
  rewrite S0, S1, Er, Ec. cbn [snd].
  rewrite broadcast_to_mismatch; [reflexivity|].
  destruct Hsmall as [[H1 H2]|[H1 H2]]; [right | left]; lia.
Qed.

Lemma net_too_small_raises_witness :
  _combine_imgs five_bars broken_maps [0; 1; 2; 3] 4 = Raise ValueError.
Proof.
  destruct (combine_strip five_bars broken_maps [0; 1; 2; 3] 4)
    as [st|e] eqn:Es; [|vm_compute in Es; discriminate].
  assert (Hs : shape1 (left_img st) = 200)
    by (vm_compute in Es; injection Es as <-; reflexivity).
  apply (net_too_small_raises five_bars broken_maps [0; 1; 2; 3] 4 st
           (full 1 100 (170, 200, 200)%Z) Es eq_refl).
  left. rewrite Hs. split; apply Nat.leb_le; reflexivity.
Defined.

(** ** Resizing: sizes and failures *)

Lemma Forall2_nth_error {A B : Type} (R : A -> B -> Prop) (l : list A)
    (l' : list B) :
  length l' = length l ->
  (forall i a, nth_error l i = Some a ->
               exists b, nth_error l' i = Some b /\ R a b) ->
  Forall2 R l l'.
Proof.
  revert l'. induction l as [|a l IH]; intros [|b l'] Hlen H;
    try discriminate; constructor.
  - destruct (H 0 a eq_refl) as (b' & Hb & HR). simpl in Hb.
    now injection Hb as <-.
  - apply IH; [simpl in Hlen; lia|].
    intros i x Hx. exact (H (S i) x Hx).
Qed.

Lemma rectangular_grid {A : Type} (h w : nat) (f : nat -> nat -> A) :
  rectangular (grid h w f).
Proof.
  unfold rectangular. apply Forall_forall. intros row Hrow.
  destruct h as [|h]; [contradiction|].
  rewrite (shape1_grid (S h) w f) by lia.
  unfold grid in Hrow. apply in_map_iff in Hrow as (r & <- & _).
  now rewrite length_map, length_seq.
Qed.

Section Sizes.

Variable interp : image -> nat -> nat -> nat -> nat -> pixel.

Lemma resized_Ok (img img' : image) :
  resized interp img = Ok img' ->
  resizable img
  /\ shape0 img' = image_height
  /\ shape1 img' = shape1 img * image_height / shape0 img
  /\ rectangular img'.
Proof.
  unfold resized, resize.
  destruct (shape0 img =? 0) eqn:E0; [discriminate|].
  destruct (shape1 img * image_height / shape0 img =? 0) eqn:E1;
    [discriminate|].
  cbn [orb]. change (image_height =? 0) with false. cbn [orb].
  destruct (shape1 img =? 0) eqn:E2; [discriminate|].
  intros H. injection H as <-.
  apply Nat.eqb_neq in E0, E1, E2.
  split; [|split; [|split]].
  - split; [lia|].
    destruct (Nat.le_gt_cases (shape0 img) (shape1 img * image_height))
      as [Hle|Hgt]; [exact Hle|].
    exfalso. apply E1. now apply Nat.div_small.
  - apply shape0_grid.
  - apply shape1_grid. unfold image_height. lia.
  - apply rectangular_grid.
Qed.

(** What [_resize_imgs] leaves in the list: each image resized, in place. *)
Lemma resize_imgs_cell (imgs : loc) (hp hp' : heap) (returned : loc)
    (cell : list image) :
  _resize_imgs interp imgs hp = Ok (returned, hp') ->
  nth_error hp imgs = Some cell ->
  returned = imgs
  /\ exists cell',
       nth_error hp' imgs = Some cell'
       /\ Forall2 (fun img img' : image => resized interp img = Ok img')
            cell cell'.
Proof.
  intros H Hcell. unfold _resize_imgs in H.
  rewrite (getitem_nth _ _ _ Hcell) in H. cbn [bind] in H.
  apply bind_Ok in H as (hp1 & Hrun & H).
  assert (E : hp1 = hp') by congruence. subst hp1.
  split; [congruence|]. clear H.
  destruct (resize_loop interp imgs (range (length cell)) (seq_NoDup _ _)
              hp hp' cell Hcell Hrun)
    as (_ & _ & cell' & Hcell' & Hlen & _ & Hin).
  exists cell'. split; [exact Hcell'|].
  apply Forall2_nth_error; [exact Hlen|].
  intros i img Hi.
  destruct (Hin i img) as (img' & Hi' & Hres); [|exact Hi|].
  { apply in_seq. split; [lia|]. simpl.
    apply nth_error_Some. congruence. }
  exists img'. split; [exact Hi' | exact Hres].
Qed.

(** X15.  After [_resize_imgs] every image of the list has [image_height]
    rows and the width of the original scaled by the same factor and rounded
    down; it is rectangular, and an image that already had [image_height]
    rows keeps its width. *)
Theorem resize_keeps_aspect (imgs : loc) (hp hp' : heap) (returned : loc)
    (cell : list image) :
  _resize_imgs interp imgs hp = Ok (returned, hp') ->
  nth_error hp imgs = Some cell ->
  exists cell',
    nth_error hp' imgs = Some cell'
    /\ Forall2 (fun img img' : image =>
                  shape0 img' = image_height
                  /\ shape1 img' = shape1 img * image_height / shape0 img
                  /\ rectangular img'
                  /\ (shape0 img = image_height -> shape1 img' = shape1 img))
         cell cell'.
Proof.
  intros H Hcell.
  destruct (resize_imgs_cell _ _ _ _ _ H Hcell) as (_ & cell' & Hcell' & Hall).
  exists cell'. split; [exact Hcell'|].
  eapply Forall2_impl; [|exact Hall].
  intros img img' Hres. cbv beta in Hres.
  apply resized_Ok in Hres as (_ & H0 & H1 & Hr).
  repeat split; try assumption.
  intros Hh. rewrite H1, Hh. apply Nat.div_mul. discriminate.
Qed.

Lemma resize_imgs_returns (imgs : loc) (hp : heap) (cell : list image) :
  nth_error hp imgs = Some cell ->
  Forall resizable cell ->
  exists hp', _resize_imgs interp imgs hp = Ok (imgs, hp').
Proof.
  intros Hcell Hall. unfold _resize_imgs.
  rewrite (getitem_nth _ _ _ Hcell). cbn [bind].
  destruct (for_each_total
              (fun h : heap => exists c, nth_error h imgs = Some c
                                         /\ length c = length cell
                                         /\ Forall resizable c)
              (range (length cell)) (resize_step interp imgs))
    with (s := hp) as (hp' & Hrun & _).
  - intros k h Hk Hh. apply (resize_step_total interp imgs (length cell));
      [|exact Hh].
    apply in_seq in Hk. lia.
  - exists cell. auto.
  - exists hp'. now rewrite Hrun.
Qed.

(** X16.  [_resize_imgs] returns exactly when every image of the list has at
    least one row and is at most [image_height] times as high as wide;
    otherwise it raises: an image without rows divides by zero, an image
    whose scaled width rounds down to 0 is refused by [cv2.resize]. *)
Theorem resize_returns_iff (imgs : loc) (hp : heap) (cell : list image) :
  nth_error hp imgs = Some cell ->
  ((exists hp', _resize_imgs interp imgs hp = Ok (imgs, hp'))
   <-> Forall resizable cell)
  /\ (forall img rest, cell = img :: rest -> shape0 img = 0 ->
        _resize_imgs interp imgs hp = Raise ZeroDivisionError)
  /\ (forall img rest, cell = img :: rest -> 0 < shape0 img ->
        shape1 img * image_height < shape0 img ->
        _resize_imgs interp imgs hp = Raise CvError).
Proof.
  intros Hcell. split; [split|split].
  - intros [hp' H]. unfold _resize_imgs in H.
    rewrite (getitem_nth _ _ _ Hcell) in H. cbn [bind] in H.
    apply bind_Ok in H as (hp1 & Hrun & _).
    destruct (resize_loop interp imgs (range (length cell)) (seq_NoDup _ _)
                hp hp1 cell Hcell Hrun)
      as (_ & _ & cell' & _ & _ & _ & Hin).
    apply Forall_forall. intros img Himg.
    apply In_nth_error in Himg as [i Hi].
    destruct (Hin i img) as (img' & _ & Hres); [|exact Hi|].
    { apply in_seq. split; [lia|]. simpl.
      apply nth_error_Some. congruence. }
    now apply resized_Ok in Hres.
  - now apply resize_imgs_returns.
  - intros img rest -> H0. unfold _resize_imgs.
    rewrite (getitem_nth _ _ _ Hcell). cbn [bind length range seq for_each].
    unfold resize_step at 1.
    rewrite (getitem_nth _ _ _ Hcell). cbn [bind getitem nth_error].
    apply Nat.eqb_eq in H0. now rewrite H0.
  - intros img rest -> Hpos Hflat. unfold _resize_imgs.
    rewrite (getitem_nth _ _ _ Hcell). cbn [bind length range seq for_each].
    unfold resize_step at 1.
    rewrite (getitem_nth _ _ _ Hcell). cbn [bind getitem nth_error].
    assert (E0 : (shape0 img =? 0) = false) by (apply Nat.eqb_neq; lia).
    rewrite E0. unfold resize.
    rewrite (Nat.div_small _ _ Hflat). reflexivity.
Qed.

End Sizes.

Lemma resize_keeps_aspect_witness :
  exists cell',
    nth_error [[full 300 2 (20, 200, 200)%Z]] 0 = Some cell'
    /\ Forall2 (fun img img' : image =>
                  shape0 img' = image_height
                  /\ shape1 img' = shape1 img * image_height / shape0 img
                  /\ rectangular img'
                  /\ (shape0 img = image_height -> shape1 img' = shape1 img))
         [full 150 1 (20, 200, 200)%Z] cell'.
Proof.
  apply (resize_keeps_aspect nearest 0 [[full 150 1 (20, 200, 200)%Z]]
           [[full 300 2 (20, 200, 200)%Z]] 0).
  - vm_compute. reflexivity.
  - reflexivity.
Defined.

Lemma resize_returns_iff_witness :
  _resize_imgs nearest 0 [[full 301 1 (20, 200, 200)%Z]] = Raise CvError.
Proof.
  refine (proj2 (proj2 (resize_returns_iff nearest 0
                          [[full 301 1 (20, 200, 200)%Z]]
                          [full 301 1 (20, 200, 200)%Z] eq_refl))
            (full 301 1 (20, 200, 200)%Z) [] eq_refl _ _).
  - apply Nat.ltb_lt. reflexivity.
  - apply Nat.ltb_lt. reflexivity.
Defined.

(** ** The whole run *)

Lemma forallb_same {A : Type} (f g : A -> bool) (l : list A) :
  (forall x, In x l -> f x = g x) -> forallb f l = forallb g l.
Proof.
  induction l as [|a l IH]; intros H; simpl; [reflexivity|].
  rewrite (H a (or_introl eq_refl)), IH; [reflexivity|].
  intros x Hx. apply H. now right.
Qed.

Section Run.

Variable interp : image -> nat -> nat -> nat -> nat -> pixel.
Variable findContours : mask -> list contour.
Variables bgr2hsv hsv2bgr : image -> image.

(** What the loading loop returns. *)
Lemma load_loop (imread : string -> option image) (pictures : string) :
  for_each (range 5) (load_step imread bgr2hsv pictures) ([], [])
  = if forallb (fun p => match imread p with Some _ => true | None => false end)
         (photo_paths pictures)
    then Ok (map imread (photo_paths pictures),
             map (fun p => match imread p with
                           | Some bgr => bgr2hsv bgr
                           | None => []
                           end) (photo_paths pictures))
    else Raise CvError.
Proof.
  unfold photo_paths. cbn [range seq map for_each forallb].
  unfold load_step at 1. cbn [app getitem nth_error bind].
  destruct (imread (pictures ++ str (0 + 1) ++ ".PNG")%string); cbn [bind andb];
    [|reflexivity].
  unfold load_step at 1. cbn [app getitem nth_error bind].
  destruct (imread (pictures ++ str (1 + 1) ++ ".PNG")%string); cbn [bind andb];
    [|reflexivity].
  unfold load_step at 1. cbn [app getitem nth_error bind].
  destruct (imread (pictures ++ str (2 + 1) ++ ".PNG")%string); cbn [bind andb];
    [|reflexivity].
  unfold load_step at 1. cbn [app getitem nth_error bind].
  destruct (imread (pictures ++ str (3 + 1) ++ ".PNG")%string); cbn [bind andb];
    [|reflexivity].
  unfold load_step at 1. cbn [app getitem nth_error bind].
  destruct (imread (pictures ++ str (4 + 1) ++ ".PNG")%string); cbn [bind andb];
    reflexivity.
Qed.

(** X17.  [cut_cube] reads the five files [<pictures>1.PNG] to
    [<pictures>5.PNG] and nothing else: two folders that agree on these five
    files give the same outcome.  When one of the five cannot be read, the
    run stops with the error of [cv2.cvtColor] and no net is produced; when
    the run returns, the list it returns beside the net holds the five
    photographs as they were read. *)
Theorem cut_cube_reads_five_files (imread : string -> option image)
    (pictures : string) :
  photo_paths pictures
  = [ (pictures ++ "1.PNG")%string; (pictures ++ "2.PNG")%string;
      (pictures ++ "3.PNG")%string; (pictures ++ "4.PNG")%string;
      (pictures ++ "5.PNG")%string ]
  /\ (forall imread' : string -> option image,
         (forall p, In p (photo_paths pictures) -> imread' p = imread p) ->
         cut_cube interp findContours imread' bgr2hsv hsv2bgr pictures
         = cut_cube interp findContours imread bgr2hsv hsv2bgr pictures)
  /\ ((exists p, In p (photo_paths pictures) /\ imread p = None) ->
      cut_cube interp findContours imread bgr2hsv hsv2bgr pictures
      = Raise CvError)
  /\ (forall res img,
         cut_cube interp findContours imread bgr2hsv hsv2bgr pictures
         = Ok (res, img) ->
         img = map imread (photo_paths pictures)
         /\ Forall (fun o : option image => o <> None) img).
Proof.
  split; [reflexivity|]. split; [|split].
  - intros imread' Hsame. unfold cut_cube. rewrite !load_loop.
    assert (E1 : map imread' (photo_paths pictures)
                 = map imread (photo_paths pictures))
      by (apply map_ext_in; exact Hsame).
    assert (E2 : forallb (fun p => match imread' p with
                                   | Some _ => true | None => false end)
                   (photo_paths pictures)
                 = forallb (fun p => match imread p with
                                     | Some _ => true | None => false end)
                     (photo_paths pictures)).
    { apply forallb_same. intros p Hp. now rewrite (Hsame p Hp). }
    assert (E3 : map (fun p => match imread' p with
                               | Some bgr => bgr2hsv bgr | None => [] end)
                   (photo_paths pictures)
                 = map (fun p => match imread p with
                                 | Some bgr => bgr2hsv bgr | None => [] end)
                     (photo_paths pictures)).
    { apply map_ext_in. intros p Hp. now rewrite (Hsame p Hp). }
    now rewrite E1, E2, E3.
  - intros (p & Hp & Hnone). unfold cut_cube. rewrite load_loop.
    assert (E : forallb (fun p => match imread p with
                                  | Some _ => true | None => false end)
                  (photo_paths pictures) = false).
    { destruct (forallb _ (photo_paths pictures)) eqn:E; [|reflexivity].
      rewrite forallb_forall in E. specialize (E p Hp).
      rewrite Hnone in E. discriminate. }
    now rewrite E.
  - intros res img H. unfold cut_cube in H. rewrite load_loop in H.
    destruct (forallb _ (photo_paths pictures)) eqn:E; [|discriminate].
    cbn [bind] in H.
    apply bind_Ok in H as (img_white & _ & H).
    apply bind_Ok in H as (detected & _ & H).
    apply bind_Ok in H as (resized & _ & H).
    apply bind_Ok in H as (img_white' & _ & H).
    apply bind_Ok in H as (net & _ & H).
    assert (Himg : img = map imread (photo_paths pictures)) by congruence.
    split; [exact Himg|]. subst img.
    apply Forall_forall. intros o Ho.
    apply in_map_iff in Ho as (p & <- & Hp).
    rewrite forallb_forall in E. specialize (E p Hp).
    destruct (imread p); [discriminate | discriminate].
Qed.

(** X18.  Every net [cut_cube] produces is the colour conversion of an image
    with twice [image_height] rows, 600. *)
Theorem cut_cube_net_rows (imread : string -> option image)
    (pictures : string) (res : image) (img : list (option image)) :
  cut_cube interp findContours imread bgr2hsv hsv2bgr pictures = Ok (res, img) ->
  exists net, res = hsv2bgr net /\ shape0 net = 2 * image_height.
Proof.
  intros H. unfold cut_cube in H.
  apply bind_Ok in H as ([img0 img_hsv] & _ & H).
  apply bind_Ok in H as (img_white & _ & H).
  apply bind_Ok in H as (detected & _ & H).
  apply bind_Ok in H as ([returned hp'] & Hres & H).
  apply bind_Ok in H as (img_white' & Hcell & H).
  apply bind_Ok in H as (net & Hnet & H).
  exists net. split; [congruence|].
  cbn [fst snd] in Hcell. apply getitem_Ok in Hcell.
  destruct (resize_imgs_cell interp 0 [img_white] hp' returned img_white
              Hres eq_refl) as (Hret & cell' & Hcell' & Hall).
  subst returned. rewrite Hcell in Hcell'. injection Hcell' as <-.
  unfold assemble in Hnet.
  destruct (_type_division (color_content detected)) as [bottom_index top_index].
  unfold _combine_imgs in Hnet.
  apply bind_Ok in Hnet as (st & Hst & Hnet).
  destruct (strip_of_order _ _ _ _ _ Hst)
    as (b0 & seed & order & _ & Hseed & _ & Hcat).
  destruct (concat_faces_shape _ _ _ _ Hcat) as (_ & _ & _ & Hrows & _).
  destruct (combine_paste_shape _ _ _ _ Hnet) as [H0 _].
  rewrite H0, Hrows. f_equal.
  apply nth_error_In in Hseed.
  clear - Hall Hseed. induction Hall as [|a b l l' Hab _ IH];
    [contradiction|].
  destruct Hseed as [<-|Hin]; [|now apply IH].
  now apply resized_Ok in Hab.
Qed.

End Run.

Lemma cut_cube_reads_five_files_witness :
  cut_cube nearest no_contours no_photo (fun a => a) (fun a => a) "./color_cube/"
  = Raise CvError.
Proof.
  refine (proj1 (proj2 (proj2 (cut_cube_reads_five_files nearest no_contours
                                 (fun a => a) (fun a => a) no_photo
                                 "./color_cube/"))) _).
  exists "./color_cube/1.PNG"%string. split; [simpl; auto | reflexivity].
Defined.

Lemma cut_cube_net_rows_witness :
  exists res img net,
    cut_cube nearest no_contours thin_photos (fun a => a) (fun a => a)
      "./color_cube/" = Ok (res, img)
    /\ res = net /\ shape0 net = 2 * image_height.
Proof.
  assert (Hok : is_Ok (cut_cube nearest no_contours thin_photos (fun a => a)
                         (fun a => a) "./color_cube/") = true)
    by (vm_compute; reflexivity).
  destruct (cut_cube nearest no_contours thin_photos (fun a => a) (fun a => a)
              "./color_cube/") as [[res img]|e] eqn:E; [|discriminate].
  destruct (cut_cube_net_rows nearest no_contours (fun a => a) (fun a => a)
              thin_photos "./color_cube/" res img E) as (net & Hres & Hrows).
  exists res, img, net. repeat split; assumption.
Defined.

(** ** Which faces the strip can hold *)

Lemma order_step_grows (dict_color_map : list dict) (bottom_index : list nat)
    (k : nat) (st st' : list string * list nat) :
  order_step dict_color_map bottom_index k st = Ok st' ->
  snd st' = snd st
  \/ exists b, nth_error bottom_index (k + 1) = Some b /\ snd st' = snd st ++ [b].
Proof.
  unfold order_step. intros H.
  apply bind_Ok in H as (b & Hb & H).
  apply bind_Ok in H as (d & _ & H).
  apply getitem_Ok in Hb.
  destruct (keys_eqb (fst st) (_get_key d 3)); injection H as <-; simpl; eauto.
Qed.

Lemma order_turns_grow (dict_color_map : list dict) (bottom_index : list nat)
    (ks : list nat) :
  forall st st',
    for_each ks (order_step dict_color_map bottom_index) st = Ok st' ->
    exists tail,
      snd st' = snd st ++ tail
      /\ length tail <= length ks
      /\ Forall (fun b => exists k, In k ks
                                    /\ nth_error bottom_index (k + 1) = Some b)
           tail.
Proof.
  induction ks as [|k ks IH]; intros st st' H; simpl in H.
  - injection H as <-. exists []. rewrite app_nil_r. auto.
  - apply bind_Ok in H as (s1 & Hstep & H).
    destruct (IH s1 st' H) as (tail & Htail & Hlen & Hall).
    assert (Hall' : Forall (fun b => exists k0, In k0 (k :: ks)
                              /\ nth_error bottom_index (k0 + 1) = Some b) tail).
    { eapply Forall_impl; [|exact Hall].
      intros b (k0 & Hk0 & Hb). exists k0. split; [now right | exact Hb]. }
    destruct (order_step_grows _ _ _ _ _ Hstep) as [E|(b & Hb & E)].
    + exists tail. rewrite Htail, E. split; [reflexivity|].
      split; [simpl; lia | exact Hall'].
    + exists (b :: tail). rewrite Htail, E, <- app_assoc.
      split; [reflexivity|]. split; [simpl; lia|].
      constructor; [|exact Hall']. exists k. split; [now left | exact Hb].
Qed.

(** X19.  Whenever the strip is built, it holds the seed, the first side
    index, once in front, followed by at most nine more faces, each of them at
    position 1, 2 or 3 of the side list: the seed is never concatenated again
    and a fifth or later side index is never used. *)
Theorem strip_faces (img_white : list image) (dict_color_map : list dict)
    (bottom_index : list nat) (top_index : nat) (st : strip_state) :
  combine_strip img_white dict_color_map bottom_index top_index = Ok st ->
  exists b0 seed order,
    nth_error bottom_index 0 = Some b0
    /\ nth_error img_white b0 = Some seed
    /\ chain_order dict_color_map bottom_index
       = Ok (connect_color st, b0 :: order)
    /\ concat_faces img_white seed order = Ok (left_img st)
    /\ length order <= 9
    /\ Forall (fun b => exists j, 1 <= j <= 3
                                  /\ nth_error bottom_index j = Some b) order.
Proof.
  intros H.
  destruct (strip_of_order _ _ _ _ _ H)
    as (b0 & seed & order & Hb0 & Hseed & Hord & Hcat).
  exists b0, seed, order. do 4 (split; [assumption|]).
  unfold chain_order in Hord.
  rewrite (getitem_nth _ _ _ Hb0) in Hord. cbn [bind] in Hord.
  apply bind_Ok in Hord as (d0 & _ & Hord).
  rewrite for_each_nested in Hord.
  destruct (order_turns_grow _ _ _ _ _ Hord) as (tail & Htail & Hlen & Hall).
  cbn [snd app] in Htail. injection Htail as ->.
  split; [exact Hlen|].
  eapply Forall_impl; [|exact Hall].
  intros b (k & Hk & Hb). exists (k + 1). split; [|exact Hb].
  unfold range in Hk. simpl in Hk. lia.
Qed.

Lemma strip_faces_witness :
  exists b0 seed order,
    nth_error [0; 1; 2; 3] 0 = Some b0
    /\ nth_error five_bars b0 = Some seed
    /\ chain_order chained_maps [0; 1; 2; 3]
       = Ok (["orange"%string], b0 :: order)
    /\ length order <= 9.
Proof.
  destruct (combine_strip five_bars chained_maps [0; 1; 2; 3] 4)
    as [st|e] eqn:E; [|discriminate].
  assert (Hc : connect_color st = ["orange"%string])
    by (vm_compute in E; injection E as <-; reflexivity).
  destruct (strip_faces five_bars chained_maps [0; 1; 2; 3] 4 st E)
    as (b0 & seed & order & H1 & H2 & H3 & _ & H5 & _).
  rewrite Hc in H3.
  exists b0, seed, order. repeat split; assumption.
Defined.

(** ** The hue bands of [color_dict] *)

(** X20.  The hue bands of the eight colours other than white touch but do
    not overlap further: an 8-bit pixel lies within the bounds of two
    different colours exactly when its hue is 15, 105, 160 or 175, an end
    point two neighbouring bands share; and it lies within the bounds of some
    colour exactly when its hue is in 5..30, 60..75, 90..120 or 145..190. *)
Theorem colour_bands_meet_at_endpoints (p : pixel) :
  eight_bit p ->
  ((exists c1 b1 c2 b2,
       In (c1, b1) color_dict /\ In (c2, b2) color_dict
       /\ c1 <> c2 /\ c1 <> "white"%string /\ c2 <> "white"%string
       /\ within (fst b1) (snd b1) p /\ within (fst b2) (snd b2) p)
   <-> In (hue p) [15; 105; 160; 175]%Z)
  /\ ((exists c b,
          In (c, b) color_dict /\ c <> "white"%string
          /\ within (fst b) (snd b) p)
      <-> (5 <= hue p <= 30 \/ 60 <= hue p <= 75 \/ 90 <= hue p <= 120
           \/ 145 <= hue p <= 190)%Z).
Proof.
  destruct p as [[h s] v]. unfold eight_bit, hue. cbn [fst snd].
  intros (Hh & Hs & Hv).
  assert (Hband : forall c b,
             In (c, b) color_dict -> c <> "white"%string ->
             within (fst b) (snd b) (h, s, v) ->
             (c = "yellow"%string /\ 15 <= h <= 30)%Z
             \/ (c = "green"%string /\ 60 <= h <= 75)%Z
             \/ (c = "blue"%string /\ 105 <= h <= 120)%Z
             \/ (c = "purple"%string /\ 145 <= h <= 160)%Z
             \/ (c = "orange"%string /\ 5 <= h <= 15)%Z
             \/ (c = "red"%string /\ 175 <= h <= 190)%Z
             \/ (c = "pink"%string /\ 160 <= h <= 175)%Z
             \/ (c = "light_blue"%string /\ 90 <= h <= 105)%Z).
  { intros c b Hin Hc Hw. unfold color_dict in Hin. cbn [In] in Hin.
    destruct Hin as [E|[E|[E|[E|[E|[E|[E|[E|[E|[]]]]]]]]]];
      injection E as <- <-; cbn [fst snd within] in Hw;
      [contradiction Hc; reflexivity| | | | | | | |]; tauto. }
  split; split.
  - intros (c1 & b1 & c2 & b2 & H1 & H2 & Hne & Hw1 & Hw2 & Hp1 & Hp2).
    pose proof (Hband c1 b1 H1 Hw1 Hp1) as B1.
    pose proof (Hband c2 b2 H2 Hw2 Hp2) as B2.
    cbn [In].
    destruct B1 as [[-> B1]|[[-> B1]|[[-> B1]|[[-> B1]|[[-> B1]|[[-> B1]
                   |[[-> B1]|[-> B1]]]]]]]];
      destruct B2 as [[-> B2]|[[-> B2]|[[-> B2]|[[-> B2]|[[-> B2]|[[-> B2]
                     |[[-> B2]|[-> B2]]]]]]]];
      try (contradiction Hne; reflexivity); lia.
  - cbn [In]. intros [E|[E|[E|[E|[]]]]]; subst h.
    + exists "yellow"%string, ((15, 0, 0), (30, 255, 255))%Z,
             "orange"%string, ((5, 0, 0), (15, 255, 255))%Z.
      unfold color_dict. cbn [In fst snd within].
      repeat (split; [first [discriminate | lia | tauto]|]). lia.
    + exists "blue"%string, ((105, 0, 0), (120, 255, 255))%Z,
             "light_blue"%string, ((90, 0, 0), (105, 255, 255))%Z.
      unfold color_dict. cbn [In fst snd within].
      repeat (split; [first [discriminate | lia | tauto]|]). lia.
    + exists "purple"%string, ((145, 0, 0), (160, 255, 255))%Z,
             "pink"%string, ((160, 0, 0), (175, 255, 255))%Z.
      unfold color_dict. cbn [In fst snd within].
      repeat (split; [first [discriminate | lia | tauto]|]). lia.
    + exists "red"%string, ((175, 0, 0), (190, 255, 255))%Z,
             "pink"%string, ((160, 0, 0), (175, 255, 255))%Z.
      unfold color_dict. cbn [In fst snd within].
      repeat (split; [first [discriminate | lia | tauto]|]). lia.
  - intros (c & b & H1 & Hw & Hp).
    pose proof (Hband c b H1 Hw Hp) as B. lia.
  - clear Hband. intros H.
    assert (C : (5 <= h <= 15 \/ 15 <= h <= 30 \/ 60 <= h <= 75
                 \/ 90 <= h <= 105 \/ 105 <= h <= 120 \/ 145 <= h <= 160
                 \/ 160 <= h <= 175 \/ 175 <= h <= 190)%Z) by lia.
    destruct C as [C|[C|[C|[C|[C|[C|[C|C]]]]]]].
    + exists "orange"%string, ((5, 0, 0), (15, 255, 255))%Z.
      unfold color_dict. cbn [In fst snd within].
      split; [tauto|]. split; [discriminate | lia].
    + exists "yellow"%string, ((15, 0, 0), (30, 255, 255))%Z.
      unfold color_dict. cbn [In fst snd within].
      split; [tauto|]. split; [discriminate | lia].
    + exists "green"%string, ((60, 0, 0), (75, 255, 255))%Z.
      unfold color_dict. cbn [In fst snd within].
      split; [tauto|]. split; [discriminate | lia].
    + exists "light_blue"%string, ((90, 0, 0), (105, 255, 255))%Z.
      unfold color_dict. cbn [In fst snd within].
      split; [tauto|]. split; [discriminate | lia].
    + exists "blue"%string, ((105, 0, 0), (120, 255, 255))%Z.
      unfold color_dict. cbn [In fst snd within].
      split; [tauto|]. split; [discriminate | lia].
    + exists "purple"%string, ((145, 0, 0), (160, 255, 255))%Z.
      unfold color_dict. cbn [In fst snd within].
      split; [tauto|]. split; [discriminate | lia].
    + exists "pink"%string, ((160, 0, 0), (175, 255, 255))%Z.
      unfold color_dict. cbn [In fst snd within].
      split; [tauto|]. split; [discriminate | lia].
    + exists "red"%string, ((175, 0, 0), (190, 255, 255))%Z.
      unfold color_dict. cbn [In fst snd within].
      split; [tauto|]. split; [discriminate | lia].
Qed.

Lemma colour_bands_meet_at_endpoints_witness :
  exists c1 b1 c2 b2,
    In (c1, b1) color_dict /\ In (c2, b2) color_dict
    /\ c1 <> c2 /\ c1 <> "white"%string /\ c2 <> "white"%string
    /\ within (fst b1) (snd b1) (15, 200, 200)%Z
    /\ within (fst b2) (snd b2) (15, 200, 200)%Z.
Proof.
  refine (proj2 (proj1 (colour_bands_meet_at_endpoints (15, 200, 200)%Z _)) _).
  - unfold eight_bit. lia.
  - cbn [hue fst In]. left. reflexivity.
Defined.
